(** * lpcjobqueue: the HTCondor job controller and cluster binding

    A shallow embedding of [src/lpcjobqueue/cluster.py]: the class
    [LPCCondorJob] (construction, [start], [close], the finalizer
    [_close_job]) and the constructor of [LPCCondorCluster].

    The scheduler object [SCHEDD], the worker-pool channel
    [scheduler_comm], the base classes of [dask_jobqueue] and the process
    environment are external to the module; they enter the model as an
    environment record [Env] whose fields give the reply (a value or a
    raised exception) of each external call. *)

From Stdlib Require Import ZArith Ascii String List Bool Lia.
From Stdlib Require Import DecimalString DecimalPos DecimalZ.
From stdpp Require Import base gmap strings list.

Local Open Scope string_scope.
Local Open Scope Z_scope.

(** ** Python values and exceptions *)

(** The exception classes that the module raises, catches or lets through. *)
Inductive ExnClass :=
  | HTCondorInternalError
  | HTCondorIOError
  | ValueError
  | TypeError
  | AttributeError
  | OSError
  | RuntimeError
  | OtherException.

Record Exn := mkExn { exn_class : ExnClass; exn_msg : string }.

Definition ExnClass_eqb (a b : ExnClass) : bool :=
  match a, b with
  | HTCondorInternalError, HTCondorInternalError
  | HTCondorIOError, HTCondorIOError
  | ValueError, ValueError
  | TypeError, TypeError
  | AttributeError, AttributeError
  | OSError, OSError
  | RuntimeError, RuntimeError
  | OtherException, OtherException => true
  | _, _ => false
  end.

(** [issubclass(c, cls)] on these classes.  The exceptions of [htcondor]
    derive from several built-in ones: [HTCondorIOError] from [OSError],
    [RuntimeError] and [ValueError]; [HTCondorInternalError] from
    [RuntimeError], [TypeError] and [ValueError].  [OtherException] stands
    for a class related to none of the others. *)
Definition exn_isinstance (c cls : ExnClass) : bool :=
  ExnClass_eqb c cls ||
  match c, cls with
  | HTCondorIOError, (OSError | RuntimeError | ValueError) => true
  | HTCondorInternalError, (RuntimeError | TypeError | ValueError) => true
  | _, _ => false
  end.

(** The outcome of a Python call: a value, or an exception on its way up. *)
Inductive result (A : Type) :=
  | Ok (a : A)
  | Raise (e : Exn).
Arguments Ok {A} a.
Arguments Raise {A} e.

Definition is_raise {A} (r : result A) : bool :=
  match r with Ok _ => false | Raise _ => true end.

(** Hashable values, the only ones that can be the key of a [dict]. *)
Inductive PyKey :=
  | KNone
  | KInt (z : Z)
  | KStr (s : string).

Inductive PyVal :=
  | VNone
  | VInt (z : Z)
  | VStr (s : string)
  | VDict (d : list (PyKey * PyVal)).

Definition PyKey_eqb (a b : PyKey) : bool :=
  match a, b with
  | KNone, KNone => true
  | KInt x, KInt y => x =? y
  | KStr x, KStr y => String.eqb x y
  | _, _ => false
  end.

(** [hash(v)]: defined on everything but a [dict]. *)
Definition py_hash (v : PyVal) : result PyKey :=
  match v with
  | VNone => Ok KNone
  | VInt z => Ok (KInt z)
  | VStr s => Ok (KStr s)
  | VDict _ => Raise (mkExn TypeError "unhashable type: 'dict'")
  end.

Fixpoint dict_get (k : PyKey) (d : list (PyKey * PyVal)) : option PyVal :=
  match d with
  | [] => None
  | (k', v) :: d' => if PyKey_eqb k k' then Some v else dict_get k d'
  end.

(** [d.setdefault(key, default)]: the key is hashed first; a present key
    keeps its value, an absent one is appended with the default.  The
    result is the value now stored under the key and the updated dict. *)
Definition dict_setdefault (d : list (PyKey * PyVal)) (key default : PyVal)
  : result (PyVal * list (PyKey * PyVal)) :=
  match py_hash key with
  | Raise e => Raise e
  | Ok k =>
      match dict_get k d with
      | Some v => Ok (v, d)
      | None => Ok (default, (d ++ [(k, default)])%list)
      end
  end.

(** [str(n)] for an [int]. *)
Definition str_int (n : Z) : string := NilZero.string_of_int (Z.to_int n).

(** [f"{x}"] for a value that is an [int] or [None]. *)
Definition str_opt_int (x : option Z) : string :=
  match x with
  | None => "None"
  | Some n => str_int n
  end.

(** Truth value of an [int] or [None], as tested by [if x:]. *)
Definition truthy_opt_int (x : option Z) : bool :=
  match x with
  | None => false
  | Some n => negb (n =? 0)
  end.

(** Truth value of a [str] or [None]. *)
Definition truthy_opt_str (x : option string) : bool :=
  match x with
  | None => false
  | Some s => negb (String.eqb s "")
  end.

(** [s.startswith(p)]. *)
Definition startswith (s p : string) : bool := String.prefix p s.

(** [d.update({k: v})] on an insertion-ordered dict with string keys: a
    present key keeps its position, an absent one goes last. *)
Fixpoint header_set (k v : string) (d : list (string * string))
  : list (string * string) :=
  match d with
  | [] => [(k, v)]
  | (k', v') :: d' =>
      if String.eqb k k' then (k, v) :: d' else (k', v') :: header_set k v d'
  end.

Definition header_update (new d : list (string * string))
  : list (string * string) :=
  fold_left (fun acc kv => header_set (fst kv) (snd kv) acc) new d.

(** ** The scheduler interface *)

(** [distributed.core.Status]. *)
Inductive Status :=
  | closed
  | closing
  | closing_gracefully
  | init
  | created
  | running
  | starting
  | stopped
  | stopping
  | undefined
  | dont_reply
  | paused
  | failed.

Definition ClassAd : Type := list (string * string).

(** [htcondor.JobAction]. *)
Inductive JobAction :=
  | Hold
  | Release
  | Remove
  | RemoveX
  | Vacate
  | VacateFast
  | Suspend
  | Continue.

(** The result ad of [SCHEDD.act]: the two counters that [close] reads. *)
Record ActResult := mkActResult { TotalSuccess : Z; TotalChangedAds : Z }.

(** [htcondor.Submit(job)]: the submit description built from the script. *)
Record Submit := mkSubmit { submit_text : string }.

(** The calls that leave the module, in the order they are issued. *)
Inductive Call :=
  | CallQueue (job : Submit)
  | CallSpool (ads : list ClassAd)
  | CallQuery (constraint : string)
  | CallAct (action : JobAction) (constraint : string)
  | CallRetire (names : list string)
  | CallSleep (seconds : Z).

Definition is_query (c : Call) : bool :=
  match c with CallQuery _ => true | _ => false end.

Definition is_act (c : Call) : bool :=
  match c with CallAct _ _ => true | _ => false end.

Definition n_queries (tr : list Call) : nat :=
  length (List.filter is_query tr).
Definition n_acts (tr : list Call) : nat :=
  length (List.filter is_act tr).

(** The world outside the module.  A reply may depend on how many calls of
    the same kind the process has already made. *)
Record Env := mkEnv {
  (* os.path.expanduser("~") *)
  env_homedir : string;
  (* socket.gethostname() *)
  env_hostname : string;
  (* random.randint(10000, 10100) *)
  env_port : Z;
  (* with SCHEDD.transaction() as txn: job.queue(txn, ad_results=classads) *)
  on_queue : Submit -> result (Z * list ClassAd);
  (* SCHEDD.spool(classads) *)
  on_spool : list ClassAd -> result unit;
  (* SCHEDD.query(constraint), by the number of earlier queries *)
  on_query : nat -> string -> result (list ClassAd);
  (* SCHEDD.act(action, constraint), by the number of earlier actions *)
  on_act : nat -> JobAction -> string -> result ActResult;
  (* self._cluster().scheduler_comm.retire_workers(names=..., ...) *)
  on_retire : list string -> result string;
  (* HTCondorCluster.__init__ applied to the keyword arguments *)
  on_cluster_init : gmap string PyVal -> result unit
}.

(** ** Logging *)

Inductive Level := DEBUG | INFO | WARNING | ERROR.

(** One constructor per logging call of the module, with its arguments. *)
Inductive LogMsg :=
  | MsgStartingWorker (name : string)
  | MsgClassAds (cluster_id : Z) (classads : list ClassAd)
  | MsgException (text : string)
  | MsgStartingJob (job_id : option Z)
  | MsgClosingWorker (name : string) (job_id : option Z) (status : Status)
  | MsgRetirementInfo (name : string) (ret : string)
  | MsgGracefullyClosed (job_id : option Z)
  | MsgReachedTimeout (name : string) (job_id : option Z)
  | MsgForcefullyClosed (job_id : option Z)
  | MsgFailedForcefulClose (job_id : option Z)
  | MsgLastDitch (job_id : option Z).

(** ** Process and object state *)

(** What the process shares between all job objects. *)
Record Process := mkProcess {
  (* the class attribute LPCCondorJob.known_jobs *)
  known_jobs : gset (option Z);
  (* job ids handed to weakref.finalize(self, self._close_job, job_id) *)
  finalizers : list (option Z);
  (* records emitted through the module's logger *)
  log : list (Level * LogMsg);
  (* the external calls made so far *)
  calls : list Call
}.

(** The attributes of one [LPCCondorJob] that the module reads or writes. *)
Record Job := mkJob {
  name : string;
  job_id : option Z;
  status : Status;
  _event_finished : bool;
  (* truth value of self._cluster, the weak reference to the cluster *)
  _cluster : bool;
  log_directory : option string;
  job_header_dict : list (string * string);
  (* what _script_template makes of the header lines, the shebang, the
     quoted environment and arguments and the executable being those of
     the base class *)
  _script_template : string -> string
}.

Definition set_job_id (x : option Z) (j : Job) : Job :=
  mkJob (name j) x (status j) (_event_finished j) (_cluster j)
        (log_directory j) (job_header_dict j) (_script_template j).

Definition set_status (s : Status) (j : Job) : Job :=
  mkJob (name j) (job_id j) s (_event_finished j) (_cluster j)
        (log_directory j) (job_header_dict j) (_script_template j).

Definition set_event_finished (b : bool) (j : Job) : Job :=
  mkJob (name j) (job_id j) (status j) b (_cluster j)
        (log_directory j) (job_header_dict j) (_script_template j).

Definition set_job_header_dict (d : list (string * string)) (j : Job) : Job :=
  mkJob (name j) (job_id j) (status j) (_event_finished j) (_cluster j)
        (log_directory j) d (_script_template j).

Definition set_known_jobs (s : gset (option Z)) (p : Process) : Process :=
  mkProcess s (finalizers p) (log p) (calls p).

Definition add_finalizer (x : option Z) (p : Process) : Process :=
  mkProcess (known_jobs p) (finalizers p ++ [x]) (log p) (calls p).

Definition add_log (r : Level * LogMsg) (p : Process) : Process :=
  mkProcess (known_jobs p) (finalizers p) (log p ++ [r]) (calls p).

Definition add_call (c : Call) (p : Process) : Process :=
  mkProcess (known_jobs p) (finalizers p) (log p) (calls p ++ [c]).

(** ** A state-and-exception monad

    A computation runs on a state and ends with a value or a raised
    exception; what it wrote before raising stays written. *)

Definition M (St A : Type) : Type := St -> result A * St.

Definition ret {St A} (a : A) : M St A := fun s => (Ok a, s).

Definition bind {St A B} (m : M St A) (k : A -> M St B) : M St B :=
  fun s =>
    match m s with
    | (Ok a, s') => k a s'
    | (Raise e, s') => (Raise e, s')
    end.

Declare Scope py_scope.
Delimit Scope py_scope with py.
Notation "x <- m ;; k" := (bind m (fun x => k))
  (at level 100, m at next level, k at level 200, right associativity)
  : py_scope.
Notation "m ;; k" := (bind m (fun _ => k))
  (at level 100, k at level 200, right associativity) : py_scope.
Local Open Scope py_scope.

Definition raise {St A} (e : Exn) : M St A := fun s => (Raise e, s).

(** [try: m  except cls as ex: handler(ex)]. *)
Definition try_except {St A} (m : M St A) (cls : ExnClass)
    (handler : Exn -> M St A) : M St A :=
  fun s =>
    match m s with
    | (Ok a, s') => (Ok a, s')
    | (Raise e, s') =>
        if ExnClass_eqb (exn_class e) cls then handler e s' else (Raise e, s')
    end.

(** An external call: note it in the trace, then hand back its reply. *)
Definition external {A} (c : Call) (reply : Process -> result A)
  : M Process A :=
  fun p => (reply p, add_call c p).

(** Run a computation on the process inside a method of a job object. *)
Definition proc {A} (m : M Process A) : M (Job * Process) A :=
  fun s =>
    match m (snd s) with
    | (r, p') => (r, (fst s, p'))
    end.

Definition get_self : M (Job * Process) Job := fun s => (Ok (fst s), s).

Definition update_self (f : Job -> Job) : M (Job * Process) unit :=
  fun s => (Ok tt, (f (fst s), snd s)).

Definition logger (lvl : Level) (msg : LogMsg) : M Process unit :=
  fun p => (Ok tt, add_log (lvl, msg) p).

Definition known_jobs_add (x : option Z) : M Process unit :=
  fun p => (Ok tt, set_known_jobs ({[x]} ∪ known_jobs p) p).

Definition known_jobs_discard (x : option Z) : M Process unit :=
  fun p => (Ok tt, set_known_jobs (known_jobs p ∖ {[x]}) p).

Definition weakref_finalize (x : option Z) : M Process unit :=
  fun p => (Ok tt, add_finalizer x p).

(** ** class LPCCondorJob *)

Definition container_prefix : string :=
  "/cvmfs/unpacked.cern.ch/registry.hub.docker.com/".

Definition default_image : string := "coffeateam/coffea-dask:latest".

Definition quote : string := String (Ascii.ascii_of_nat 34) EmptyString.

Section WithEnv.

Variable env : Env.

Definition schedd_queue (job : Submit) : M Process (Z * list ClassAd) :=
  external (CallQueue job) (fun _ => on_queue env job).

Definition schedd_spool (ads : list ClassAd) : M Process unit :=
  external (CallSpool ads) (fun _ => on_spool env ads).

Definition schedd_query (constraint : string) : M Process (list ClassAd) :=
  external (CallQuery constraint)
           (fun p => on_query env (n_queries (calls p)) constraint).

Definition schedd_act (a : JobAction) (constraint : string)
  : M Process ActResult :=
  external (CallAct a constraint)
           (fun p => on_act env (n_acts (calls p)) a constraint).

Definition retire_workers (names : list string) : M Process string :=
  external (CallRetire names) (fun _ => on_retire env names).

Definition asyncio_sleep (seconds : Z) : M Process unit :=
  external (CallSleep seconds) (fun _ => Ok tt).

(** [LPCCondorJob.__init__], after [super().__init__] has filled in [base]:
    the log directory check and the header entries. *)
Definition LPCCondorJob_init (image : string) (base : Job) : result Job :=
  let image := container_prefix ++ image in
  let homedir := env_homedir env in
  if truthy_opt_str (log_directory base)
     && negb (startswith (default "" (log_directory base)) homedir)
  then
    Raise (mkExn ValueError
      ("log_directory must be a subpath of " ++ homedir ++
       " or else the schedd cannot write our logs back to the container"))
  else
    Ok (set_job_header_dict
          (header_update
             [("initialdir", homedir);
              ("use_x509userproxy", "true");
              ("when_to_transfer_output", "ON_EXIT_OR_EVICT");
              ("transfer_output_files", "");
              ("+SingularityImage", quote ++ image ++ quote)]
             (job_header_dict base))
          base).

Definition newline : string := String (Ascii.ascii_of_nat 10) EmptyString.

(** [LPCCondorJob.job_script]: the header entries, one "k = v" per line,
    set into the template. *)
Definition job_script (self : Job) : string :=
  let job_header_lines :=
    String.concat newline
      (map (fun kv => fst kv ++ " = " ++ snd kv) (job_header_dict self)) in
  _script_template self job_header_lines.

(** The closure [sub] of [start]. *)
Definition sub (job : Submit) : M Process (option Z) :=
  try_except
    (r <- schedd_queue job ;;
     let cluster_id := fst r in
     let classads := snd r in
     logger DEBUG (MsgClassAds cluster_id classads) ;;
     schedd_spool classads ;;
     ret (Some cluster_id))
    HTCondorInternalError
    (fun ex =>
       logger ERROR (MsgException (exn_msg ex)) ;;
       ret None).

Definition start : M (Job * Process) unit :=
  self <- get_self ;;
  proc (logger INFO (MsgStartingWorker (name self))) ;;
  let job := job_script self in
  let job := mkSubmit job in
  r <- proc (sub job) ;;
  update_self (set_job_id r) ;;
  self <- get_self ;;
  if truthy_opt_int (job_id self) then
    proc (known_jobs_add (job_id self)) ;;
    proc (weakref_finalize (job_id self)) ;;
    proc (logger INFO (MsgStartingJob (job_id self))) ;;
    update_self (set_status running)
  else
    ret tt.

Definition cluster_id_constraint (x : option Z) : string :=
  "ClusterId == " ++ str_opt_int x.

(** The closure [check_gone] of [close]. *)
Definition check_gone (self : Job) : M Process bool :=
  rows <- schedd_query (cluster_id_constraint (job_id self)) ;;
  ret (Nat.eqb (length rows) 0).

(** What both successful ends of [close] do before returning. *)
Definition mark_closed (msg : LogMsg) : M (Job * Process) unit :=
  self <- get_self ;;
  proc (logger INFO msg) ;;
  proc (known_jobs_discard (job_id self)) ;;
  update_self (set_status closed) ;;
  update_self (set_event_finished true).

(** [for _ in range(n)]: the result tells whether the body returned from
    [close]. *)
Fixpoint poll (n : nat) : M (Job * Process) bool :=
  match n with
  | O => ret false
  | S n' =>
      proc (asyncio_sleep 1) ;;
      self <- get_self ;;
      gone <- proc (check_gone self) ;;
      if gone then
        mark_closed (MsgGracefullyClosed (job_id self)) ;;
        ret true
      else
        poll n'
  end.

(** The closure [stop] of [close]. *)
Definition stop (self : Job) : M Process bool :=
  res <- schedd_act Remove (cluster_id_constraint (job_id self)) ;;
  if (TotalSuccess res =? 1) && (TotalChangedAds res =? 1) then ret true
  else ret false.

Definition close : M (Job * Process) unit :=
  self <- get_self ;;
  proc (logger INFO (MsgClosingWorker (name self) (job_id self) (status self))) ;;
  (if _cluster self then
     r <- proc (retire_workers [name self]) ;;
     proc (logger DEBUG (MsgRetirementInfo (name self) r))
   else ret tt) ;;
  returned <- poll 30 ;;
  if returned then ret tt
  else
    proc (logger INFO (MsgReachedTimeout (name self) (job_id self))) ;;
    result <- proc (stop self) ;;
    if result then
      mark_closed (MsgForcefullyClosed (job_id self))
    else
      proc (logger ERROR (MsgFailedForcefulClose (job_id self))).

(** The class method handed to [weakref.finalize]. *)
Definition _close_job (job_id : option Z) : M Process unit :=
  p <- (fun p => (Ok p, p)) ;;
  if decide (job_id ∈ known_jobs p) then
    logger WARNING (MsgLastDitch job_id) ;;
    schedd_act Remove (cluster_id_constraint job_id) ;;
    known_jobs_discard job_id
  else
    ret tt.

(** ** class LPCCondorCluster *)

(** [kwargs["scheduler_options"].setdefault(scheduler_options)]: the
    attribute exists on a dict only; its one argument is the key. *)
Definition call_setdefault (target key : PyVal) : result PyVal :=
  match target with
  | VDict d =>
      match dict_setdefault d key VNone with
      | Ok (_, d') => Ok (VDict d')
      | Raise e => Raise e
      end
  | _ =>
      Raise (mkExn AttributeError "object has no attribute 'setdefault'")
  end.

Definition LPCCondorCluster_init (kwargs : gmap string PyVal) : result unit :=
  let hostname := env_hostname env in
  let port := env_port env in
  let scheduler_options :=
    VDict [(KStr "host", VStr (hostname ++ ":" ++ str_int port))] in
  let merged :=
    match kwargs !! "scheduler_options" with
    | Some caller =>
        match call_setdefault caller scheduler_options with
        | Ok caller' => Ok (<["scheduler_options" := caller']> kwargs)
        | Raise e => Raise e
        end
    | None => Ok (<["scheduler_options" := scheduler_options]> kwargs)
    end in
  match merged with
  | Raise e => Raise e
  | Ok kwargs' =>
      match on_cluster_init env kwargs' with
      | Ok h => Ok h
      | Raise e =>
          if exn_isinstance (exn_class e) OSError then
            Raise (mkExn RuntimeError
              ("Likely failed to bind to local port " ++ str_int port ++
               ", try rerunning"))
          else Raise e
      end
  end.

End WithEnv.

(** ** Module-level helpers *)

(** The attributes of [sys] that [is_venv] looks at; an absent attribute
    is [None]. *)
Record SysInfo := mkSysInfo {
  sys_real_prefix : option string;
  sys_base_prefix : option string;
  sys_prefix : string
}.

(** [is_venv()]. *)
Definition is_venv (sys : SysInfo) : bool :=
  match sys_real_prefix sys with
  | Some _ => true
  | None =>
      match sys_base_prefix sys with
      | Some b => negb (String.eqb b (sys_prefix sys))
      | None => false
      end
  end.

(** [d[k]] on the header dict, [None] for a missing key. *)
Fixpoint header_get (k : string) (d : list (string * string))
  : option string :=
  match d with
  | [] => None
  | (k', v) :: d' => if String.eqb k k' then Some v else header_get k d'
  end.

(** [list(d.keys())]. *)
Definition header_keys (d : list (string * string)) : list string :=
  map fst d.

(** ** Reading the specification's words *)

(** The components of a path: the pieces between slashes, empty ones
    dropped. *)
Fixpoint path_components_aux (cur : string) (s : string) : list string :=
  match s with
  | EmptyString => if String.eqb cur "" then [] else [cur]
  | String a s' =>
      if Ascii.eqb a "/"%char then
        (if String.eqb cur "" then [] else [cur]) ++ path_components_aux "" s'
      else
        path_components_aux (cur ++ String a EmptyString) s'
  end%list.

Definition path_components (s : string) : list string :=
  path_components_aux "" s.

Fixpoint components_prefix (a b : list string) : bool :=
  match a, b with
  | [], _ => true
  | x :: a', y :: b' => String.eqb x y && components_prefix a' b'
  | _ :: _, [] => false
  end.

(** "[p] is a sub-path of [home]": [p] names [home] or something below it,
    component by component. *)
Definition is_subpath (home p : string) : bool :=
  components_prefix (path_components home) (path_components p).

(** The trace of [k] rounds of the polling loop. *)
Definition polled (c : string) (k : nat) : list Call :=
  concat (replicate k [CallSleep 1; CallQuery c]).

Definition add_calls (cs : list Call) (p : Process) : Process :=
  mkProcess (known_jobs p) (finalizers p) (log p) (calls p ++ cs).

Definition add_logs (rs : list (Level * LogMsg)) (p : Process) : Process :=
  mkProcess (known_jobs p) (finalizers p) (log p ++ rs) (calls p).

(** The calls and log records of the retirement step of [close]. *)
Definition retire_calls (j : Job) : list Call :=
  if _cluster j then [CallRetire [name j]] else [].

(** The retirement request, when one is made, comes back with a value. *)
Definition retire_returns (env : Env) (j : Job) : Prop :=
  _cluster j = true -> exists r, on_retire env [name j] = Ok r.

(** Every one of the [n] queries that follow the trace [tr] finds the job. *)
Definition still_queued (env : Env) (c : string) (tr : list Call) (n : nat)
  : Prop :=
  forall i, (i < n)%nat ->
    exists rows, on_query env (n_queries tr + i) c = Ok rows /\ rows <> [].

(** The log records of the retirement step of [close]. *)
Definition retire_logs (env : Env) (j : Job) : list (Level * LogMsg) :=
  if _cluster j then
    match on_retire env [name j] with
    | Ok r => [(DEBUG, MsgRetirementInfo (name j) r)]
    | Raise _ => []
    end
  else [].

(** The process as the polling loop of [close] finds it. *)
Definition prepared (env : Env) (j : Job) (p : Process) : Process :=
  add_calls (retire_calls j)
    (add_logs ((INFO, MsgClosingWorker (name j) (job_id j) (status j))
               :: retire_logs env j) p).

(** The process once the removal has been asked for. *)
Definition escalated (j : Job) (p : Process) : Process :=
  add_calls [CallAct Remove (cluster_id_constraint (job_id j))]
    (add_logs [(INFO, MsgReachedTimeout (name j) (job_id j))] p).

(** What [stop] makes of a removal report. *)
Definition removal_succeeded (res : ActResult) : bool :=
  (TotalSuccess res =? 1) && (TotalChangedAds res =? 1).

(** The test of [except htcondor.HTCondorInternalError]. *)
Definition is_internal_error (e : Exn) : bool :=
  ExnClass_eqb (exn_class e) HTCondorInternalError.

(** The three parts of what a method of a job object leaves behind. *)
Definition outcome {A} (x : result A * (Job * Process)) : result A := fst x.
Definition job_after {A} (x : result A * (Job * Process)) : Job :=
  fst (snd x).
Definition process_after {A} (x : result A * (Job * Process)) : Process :=
  snd (snd x).

(** ** Scripted environments for the examples *)

Definition one_ad : list ClassAd := [[("ClusterId", "1")]].

(** A scheduler that accepts the submission under [cid], reports the job
    queued for the first [busy] queries and gone afterwards, and answers a
    removal with [res]. *)
Definition scripted (cid : Z) (busy : nat) (res : ActResult) : Env :=
  mkEnv "/home/user" "cmslpc101" 10042
    (fun _ => Ok (cid, one_ad))
    (fun _ => Ok tt)
    (fun i _ => if Nat.ltb i busy then Ok one_ad else Ok [])
    (fun _ _ _ => Ok res)
    (fun _ => Ok "{}")
    (fun _ => Ok tt).

(** A scheduler whose submit transaction raises [e]. *)
Definition rejecting (e : Exn) : Env :=
  mkEnv "/home/user" "cmslpc101" 10042
    (fun _ => Raise e)
    (fun _ => Ok tt)
    (fun _ _ => Ok [])
    (fun _ _ _ => Ok (mkActResult 1 1))
    (fun _ => Ok "{}")
    (fun _ => Ok tt).

(** A scheduler whose queries and removals raise [e]. *)
Definition unreachable (e : Exn) : Env :=
  mkEnv "/home/user" "cmslpc101" 10042
    (fun _ => Ok (7, one_ad))
    (fun _ => Ok tt)
    (fun _ _ => Raise e)
    (fun _ _ _ => Raise e)
    (fun _ => Ok "{}")
    (fun _ => Ok tt).

(** A scheduler that never lets go of the job and answers a removal with
    [reply]. *)
Definition holding (reply : result ActResult) : Env :=
  mkEnv "/home/user" "cmslpc101" 10042
    (fun _ => Ok (7, one_ad))
    (fun _ => Ok tt)
    (fun _ _ => Ok one_ad)
    (fun _ _ _ => reply)
    (fun _ => Ok "{}")
    (fun _ => Ok tt).

(** A worker pool whose retirement request raises [e]. *)
Definition retire_failing (e : Exn) : Env :=
  mkEnv "/home/user" "cmslpc101" 10042
    (fun _ => Ok (7, one_ad))
    (fun _ => Ok tt)
    (fun _ _ => Ok [])
    (fun _ _ _ => Ok (mkActResult 1 1))
    (fun _ => Raise e)
    (fun _ => Ok tt).

(** A scheduler that queues the job under id 7 and then raises [e] from
    the spooling. *)
Definition spool_failing (e : Exn) : Env :=
  mkEnv "/home/user" "cmslpc101" 10042
    (fun _ => Ok (7, one_ad))
    (fun _ => Raise e)
    (fun _ _ => Ok [])
    (fun _ _ _ => Ok (mkActResult 1 1))
    (fun _ => Ok "{}")
    (fun _ => Ok tt).

(** A scheduler that never lets go of the job, beside a worker pool whose
    retirement request raises [e]. *)
Definition holding_retire_failing (e : Exn) : Env :=
  mkEnv "/home/user" "cmslpc101" 10042
    (fun _ => Ok (7, one_ad))
    (fun _ => Ok tt)
    (fun _ _ => Ok one_ad)
    (fun _ _ _ => Ok (mkActResult 1 1))
    (fun _ => Raise e)
    (fun _ => Ok tt).

(** A host on which the base constructor of the cluster raises [e]. *)
Definition bind_failing (e : Exn) : Env :=
  mkEnv "/home/user" "cmslpc101" 10042
    (fun _ => Ok (7, one_ad))
    (fun _ => Ok tt)
    (fun _ _ => Ok [])
    (fun _ _ _ => Ok (mkActResult 1 1))
    (fun _ => Ok "{}")
    (fun _ => Raise e).

Definition fresh_job (logdir : option string) : Job :=
  mkJob "worker-0" None created false true logdir
        [("universe", "vanilla")]
        (fun header => header ++ newline ++ "queue").

Definition running_job (cid : Z) : Job :=
  set_status running (set_job_id (Some cid) (fresh_job None)).

(** The base-class state of a job with its logs under the home directory,
    and the object that the constructor makes of it for image [a/b:tag]. *)
Definition base_job : Job := fresh_job (Some "/home/user/logs").

Definition constructed_job : Job :=
  match LPCCondorJob_init (scripted 7 0 (mkActResult 1 1)) "a/b:tag"
          base_job with
  | Ok j => j
  | Raise _ => base_job
  end.

Definition empty_process : Process := mkProcess ∅ [] [] [].

Definition process_with (cid : Z) : Process :=
  mkProcess {[Some cid]} [Some cid] [] [].

(** ** Counting calls in a trace *)

Local Open Scope list_scope.

Lemma n_queries_app (a b : list Call) :
  n_queries (a ++ b) = (n_queries a + n_queries b)%nat.
Proof. unfold n_queries. now rewrite List.filter_app, List.length_app. Qed.

Lemma n_acts_app (a b : list Call) :
  n_acts (a ++ b) = (n_acts a + n_acts b)%nat.
Proof. unfold n_acts. now rewrite List.filter_app, List.length_app. Qed.

Lemma polled_S (c : string) (k : nat) :
  polled c (S k) = [CallSleep 1; CallQuery c] ++ polled c k.
Proof. reflexivity. Qed.

Lemma n_queries_polled (c : string) (k : nat) : n_queries (polled c k) = k.
Proof.
  induction k as [|k IH]; [reflexivity|].
  rewrite polled_S, n_queries_app, IH. reflexivity.
Qed.

Lemma n_acts_polled (c : string) (k : nat) : n_acts (polled c k) = 0%nat.
Proof.
  induction k as [|k IH]; [reflexivity|].
  rewrite polled_S, n_acts_app, IH. reflexivity.
Qed.

Lemma n_queries_retire (j : Job) : n_queries (retire_calls j) = 0%nat.
Proof. unfold retire_calls. now destruct (_cluster j). Qed.

Lemma n_acts_retire (j : Job) : n_acts (retire_calls j) = 0%nat.
Proof. unfold retire_calls. now destruct (_cluster j). Qed.

Lemma length_zero_iff_nil {A} (l : list A) :
  Nat.eqb (length l) 0 = true <-> l = [].
Proof. destruct l; simpl; split; congruence. Qed.

Lemma query_index_next (c : string) (p : Process) (k : nat) :
  (n_queries (calls (add_calls [CallSleep 1; CallQuery c] p)) + k
   = n_queries (calls p) + S k)%nat.
Proof.
  unfold add_calls. cbn [calls]. rewrite n_queries_app.
  cbn [n_queries List.filter is_query length]. lia.
Qed.

Lemma still_queued_head (env : Env) (c : string) (tr : list Call) (n : nat) :
  still_queued env c tr (S n) ->
  exists rows, on_query env (n_queries tr) c = Ok rows /\ rows <> [].
Proof.
  intros H. destruct (H 0%nat ltac:(lia)) as (rows & Hq & Hne).
  rewrite Nat.add_0_r in Hq. eauto.
Qed.

Lemma still_queued_tail (env : Env) (c : string) (p : Process) (n : nat) :
  still_queued env c (calls p) (S n) ->
  still_queued env c (calls (add_calls [CallSleep 1; CallQuery c] p)) n.
Proof.
  intros H i Hi. rewrite query_index_next. apply H. lia.
Qed.

Lemma add_calls_polled (c : string) (n : nat) (p : Process) :
  add_calls (polled c n) (add_calls [CallSleep 1; CallQuery c] p)
  = add_calls (polled c (S n)) p.
Proof.
  destruct p. unfold add_calls. cbn [known_jobs finalizers log calls].
  now rewrite polled_S, <- app_assoc.
Qed.

Section Polling.

Variable env : Env.

(** One round of the loop, by the reply to its query. *)
Lemma poll_round (n : nat) (j : Job) (p : Process) :
  poll env (S n) (j, p) =
  let c := cluster_id_constraint (job_id j) in
  let p1 := add_calls [CallSleep 1; CallQuery c] p in
  match on_query env (n_queries (calls p)) c with
  | Raise e => (Raise e, (j, p1))
  | Ok rows =>
      if Nat.eqb (length rows) 0 then
        (Ok true,
         (set_event_finished true (set_status closed j),
          set_known_jobs (known_jobs p ∖ {[job_id j]})
            (add_logs [(INFO, MsgGracefullyClosed (job_id j))] p1)))
      else poll env n (j, p1)
  end.
Proof.
  destruct p as [kj fin lg cl].
  cbn [poll].
  unfold mark_closed, get_self, update_self, known_jobs_discard, logger, proc, asyncio_sleep, check_gone, schedd_query, external, bind, ret,
    add_call, add_calls.
  cbn -[poll Nat.eqb n_queries cluster_id_constraint].
  rewrite n_queries_app. cbn [n_queries List.filter is_query length].
  rewrite Nat.add_0_r, <- app_assoc. cbn [app].
  destruct (on_query env (n_queries cl) _) as [rows|e]; [|reflexivity].
  cbn -[poll Nat.eqb n_queries cluster_id_constraint].
  destruct (Nat.eqb (length rows) 0); reflexivity.
Qed.

(** A round whose query finds the job goes on to the next round. *)
Lemma poll_round_busy (n k : nat) (j : Job) (p : Process) :
  still_queued env (cluster_id_constraint (job_id j)) (calls p) (S k) ->
  poll env (S n) (j, p) =
  poll env n
    (j, add_calls
          [CallSleep 1; CallQuery (cluster_id_constraint (job_id j))] p).
Proof.
  intros Hbusy. rewrite poll_round. cbv zeta.
  destruct (still_queued_head _ _ _ _ Hbusy) as (rows & Hq & Hne).
  rewrite Hq.
  destruct (Nat.eqb (length rows) 0) eqn:E; [|reflexivity].
  apply length_zero_iff_nil in E. contradiction.
Qed.

(** While the job stays queued the loop runs to its end and changes
    nothing but the trace. *)
Lemma poll_busy (n : nat) (j : Job) (p : Process) :
  still_queued env (cluster_id_constraint (job_id j)) (calls p) n ->
  poll env n (j, p) =
  (Ok false, (j, add_calls (polled (cluster_id_constraint (job_id j)) n) p)).
Proof.
  revert p. induction n as [|n IH]; intros p Hbusy.
  - destruct p; unfold add_calls; cbn. now rewrite app_nil_r.
  - rewrite (poll_round_busy n n j p Hbusy), IH, add_calls_polled;
      [reflexivity | now apply still_queued_tail].
Qed.

(** The first empty reply ends the loop on the spot. *)
Lemma poll_gone (k n : nat) (j : Job) (p : Process) :
  (k < n)%nat ->
  still_queued env (cluster_id_constraint (job_id j)) (calls p) k ->
  on_query env (n_queries (calls p) + k) (cluster_id_constraint (job_id j))
    = Ok [] ->
  poll env n (j, p) =
  (Ok true,
   (set_event_finished true (set_status closed j),
    set_known_jobs (known_jobs p ∖ {[job_id j]})
      (add_logs [(INFO, MsgGracefullyClosed (job_id j))]
         (add_calls (polled (cluster_id_constraint (job_id j)) (S k)) p)))).
Proof.
  revert n p. induction k as [|k IH]; intros n p Hlt Hbusy Hgone;
    (destruct n as [|n]; [lia|]).
  - rewrite poll_round. cbv zeta.
    rewrite Nat.add_0_r in Hgone. rewrite Hgone. reflexivity.
  - rewrite (poll_round_busy n k j p Hbusy), (IH n).
    + now rewrite add_calls_polled.
    + lia.
    + now apply still_queued_tail.
    + now rewrite query_index_next.
Qed.

(** A query that raises ends the loop with that exception; the job object
    and the registry are as they were. *)
Lemma poll_raise (k n : nat) (j : Job) (p : Process) (e : Exn) :
  (k < n)%nat ->
  still_queued env (cluster_id_constraint (job_id j)) (calls p) k ->
  on_query env (n_queries (calls p) + k) (cluster_id_constraint (job_id j))
    = Raise e ->
  poll env n (j, p) =
  (Raise e,
   (j, add_calls (polled (cluster_id_constraint (job_id j)) (S k)) p)).
Proof.
  revert n p. induction k as [|k IH]; intros n p Hlt Hbusy Hraise;
    (destruct n as [|n]; [lia|]).
  - rewrite poll_round. cbv zeta.
    rewrite Nat.add_0_r in Hraise. rewrite Hraise. reflexivity.
  - rewrite (poll_round_busy n k j p Hbusy), (IH n).
    + now rewrite add_calls_polled.
    + lia.
    + now apply still_queued_tail.
    + now rewrite query_index_next.
Qed.

(** Whatever the scheduler replies, the loop either returns from [close]
    with the job marked closed and its id discarded, or leaves the job, the
    registry, the finalizers and the log alone; it never asks for a
    removal. *)
Lemma poll_cases (n : nat) (j : Job) (p : Process) :
  let '(r, (j', p')) := poll env n (j, p) in
  n_acts (calls p') = n_acts (calls p) /\
  finalizers p' = finalizers p /\
  match r with
  | Ok true =>
      j' = set_event_finished true (set_status closed j) /\
      known_jobs p' = known_jobs p ∖ {[job_id j]} /\
      log p' = log p ++ [(INFO, MsgGracefullyClosed (job_id j))]
  | _ => j' = j /\ known_jobs p' = known_jobs p /\ log p' = log p
  end.
Proof.
  revert p. induction n as [|n IH]; intros p.
  - cbn. auto.
  - rewrite poll_round. cbv zeta.
    destruct (on_query env _ _) as [rows|e].
    + destruct (Nat.eqb (length rows) 0).
      * cbn [calls add_calls add_logs set_known_jobs known_jobs finalizers log].
        rewrite n_acts_app. cbn. rewrite Nat.add_0_r. auto.
      * specialize (IH (add_calls
          [CallSleep 1; CallQuery (cluster_id_constraint (job_id j))] p)).
        destruct (poll env n _) as [r [j' p']].
        cbn [calls add_calls known_jobs finalizers log] in IH.
        rewrite n_acts_app in IH. cbn in IH. rewrite Nat.add_0_r in IH.
        exact IH.
    + cbn [calls add_calls known_jobs finalizers log].
      rewrite n_acts_app. cbn. rewrite Nat.add_0_r. auto.
Qed.

(** [close] up to the loop: a retirement request that raises ends it. *)
Lemma close_retire_raise (j : Job) (p : Process) (e : Exn) :
  _cluster j = true ->
  on_retire env [name j] = Raise e ->
  close env (j, p) =
  (Raise e,
   (j, add_calls [CallRetire [name j]]
         (add_logs [(INFO, MsgClosingWorker (name j) (job_id j) (status j))]
            p))).
Proof.
  intros Hc Hr. destruct p as [kj fin lg cl].
  unfold close, bind, get_self, proc, logger, retire_workers, external.
  cbn [fst snd]. rewrite Hc. cbn [fst snd]. rewrite Hr. reflexivity.
Qed.

(** The retirement step of [close], when its request returns. *)
Lemma retire_step (j : Job) (p : Process) :
  retire_returns env j ->
  (if _cluster j
   then bind (proc (retire_workers env [name j]))
          (fun r => proc (logger DEBUG (MsgRetirementInfo (name j) r)))
   else ret tt) (j, p)
  = (Ok tt, (j, add_calls (retire_calls j) (add_logs (retire_logs env j) p))).
Proof.
  intros Hret. destruct p as [kj fin lg cl].
  unfold retire_returns, retire_calls, retire_logs in *.
  destruct (_cluster j).
  - destruct (Hret eq_refl) as [r Hr]. rewrite Hr.
    unfold bind, proc, retire_workers, external, logger, add_calls,
      add_logs, add_log, add_call.
    cbn [fst snd known_jobs finalizers log calls]. rewrite Hr. reflexivity.
  - unfold ret, add_calls, add_logs. cbn [known_jobs finalizers log calls].
    now rewrite !app_nil_r.
Qed.

(** [close] from the loop on, when the retirement step has returned. *)
Lemma close_from_poll (j : Job) (p : Process) :
  retire_returns env j ->
  close env (j, p) =
  match poll env 30 (j, prepared env j p) with
  | (Raise e, s) => (Raise e, s)
  | (Ok true, s) => (Ok tt, s)
  | (Ok false, (j', p')) =>
      match on_act env (n_acts (calls p')) Remove
              (cluster_id_constraint (job_id j)) with
      | Raise e => (Raise e, (j', escalated j p'))
      | Ok res =>
          if removal_succeeded res then
            (Ok tt,
             (set_event_finished true (set_status closed j'),
              set_known_jobs (known_jobs p' ∖ {[job_id j']})
                (add_logs [(INFO, MsgForcefullyClosed (job_id j))]
                   (escalated j p'))))
          else
            (Ok tt,
             (j', add_logs [(ERROR, MsgFailedForcefulClose (job_id j))]
                    (escalated j p')))
      end
  end.
Proof.
  intros Hret.
  assert (Hprep :
    add_calls (retire_calls j) (add_logs (retire_logs env j)
      (add_log (INFO, MsgClosingWorker (name j) (job_id j) (status j)) p))
    = prepared env j p).
  { destruct p. unfold prepared, add_calls, add_logs, add_log.
    cbn [known_jobs finalizers log calls]. now rewrite <- app_assoc. }
  unfold close at 1.
  unfold bind at 1. unfold get_self at 1. cbn [fst snd].
  unfold bind at 1. unfold proc at 1, logger at 1. cbn [fst snd].
  unfold bind at 1.
  rewrite (retire_step j _ Hret), Hprep. clear Hprep.
  unfold bind at 1.
  destruct (poll env 30 _) as [[[|]|e] [j' p']]; try reflexivity.
  destruct p' as [kj' fin' lg' cl'].
  cbv beta iota zeta delta [bind proc logger stop schedd_act external ret
    mark_closed get_self update_self known_jobs_discard escalated
    removal_succeeded add_calls add_logs add_log add_call set_known_jobs
    fst snd known_jobs finalizers log calls].
  destruct (on_act env (n_acts cl') Remove _) as [res|e]; [|reflexivity].
  destruct ((TotalSuccess res =? 1) && (TotalChangedAds res =? 1));
    reflexivity.
Qed.

End Polling.

(** ** Closing a job *)

Lemma n_queries_prepared (env : Env) (j : Job) (p : Process) :
  n_queries (calls (prepared env j p)) = n_queries (calls p).
Proof.
  unfold prepared, add_calls, add_logs. cbn [calls].
  rewrite n_queries_app, n_queries_retire. lia.
Qed.

Lemma n_acts_prepared (env : Env) (j : Job) (p : Process) :
  n_acts (calls (prepared env j p)) = n_acts (calls p).
Proof.
  unfold prepared, add_calls, add_logs. cbn [calls].
  rewrite n_acts_app, n_acts_retire. lia.
Qed.

Lemma still_queued_prepared (env : Env) (c : string) (j : Job) (p : Process)
    (n : nat) :
  still_queued env c (calls p) n ->
  still_queued env c (calls (prepared env j p)) n.
Proof. unfold still_queued. now rewrite n_queries_prepared. Qed.

(** C2. For every k from 1 to 30: when the first k-1 queries of [close]
    find the job and the k-th returns no rows, [close] returns normally
    after exactly k rounds of sleeping one second and querying, with the
    job id discarded from [known_jobs], the status set to [closed], the
    finished event set, "Gracefully closed" as its last log record, and
    without any call to [SCHEDD.act]. *)
Theorem close_graceful_at_kth_poll (env : Env) (j : Job) (p : Process)
    (k : nat) :
  (1 <= k <= 30)%nat ->
  retire_returns env j ->
  still_queued env (cluster_id_constraint (job_id j)) (calls p) (k - 1) ->
  on_query env (n_queries (calls p) + (k - 1))
    (cluster_id_constraint (job_id j)) = Ok [] ->
  let after := close env (j, p) in
  outcome after = Ok tt /\
  known_jobs (process_after after) = (known_jobs p ∖ {[job_id j]}) /\
  (job_id j ∉ known_jobs (process_after after)) /\
  status (job_after after) = closed /\
  _event_finished (job_after after) = true /\
  last (log (process_after after))
    = Some (INFO, MsgGracefullyClosed (job_id j)) /\
  calls (process_after after)
    = calls p ++ retire_calls j
        ++ polled (cluster_id_constraint (job_id j)) k /\
  n_acts (calls (process_after after)) = n_acts (calls p).
Proof.
  intros Hk Hret Hbusy Hgone after. subst after.
  rewrite (close_from_poll env j p Hret).
  rewrite (poll_gone env (k - 1) 30 j (prepared env j p)); cycle 1.
  - lia.
  - now apply still_queued_prepared.
  - now rewrite n_queries_prepared.
  - assert (S (k - 1) = k) as -> by lia.
    unfold outcome, job_after, process_after. cbn [fst snd].
    destruct p as [kj fin lg cl].
    unfold prepared, add_calls, add_logs, set_known_jobs.
    cbn [known_jobs finalizers log calls set_status set_event_finished
         status _event_finished].
    repeat split.
    + rewrite elem_of_difference, elem_of_singleton. tauto.
    + apply last_snoc.
    + now rewrite <- app_assoc.
    + rewrite !n_acts_app, n_acts_retire, n_acts_polled. lia.
Qed.

(** The trace of a [close] that escalates to the removal. *)
Lemma close_forced_trace (env : Env) (j : Job) (p : Process) :
  retire_returns env j ->
  still_queued env (cluster_id_constraint (job_id j)) (calls p) 30 ->
  let c := cluster_id_constraint (job_id j) in
  let after := close env (j, p) in
  calls (process_after after)
    = calls p ++ retire_calls j ++ polled c 30 ++ [CallAct Remove c] /\
  match on_act env (n_acts (calls p)) Remove c with
  | Raise e => outcome after = Raise e /\ job_after after = j /\
      known_jobs (process_after after) = known_jobs p
  | Ok report =>
      outcome after = Ok tt /\
      if removal_succeeded report then
        job_after after = set_event_finished true (set_status closed j) /\
        known_jobs (process_after after) = (known_jobs p ∖ {[job_id j]}) /\
        last (log (process_after after))
          = Some (INFO, MsgForcefullyClosed (job_id j))
      else
        job_after after = j /\
        known_jobs (process_after after) = known_jobs p /\
        last (log (process_after after))
          = Some (ERROR, MsgFailedForcefulClose (job_id j))
  end.
Proof.
  intros Hret Hbusy c after. subst c after.
  rewrite (close_from_poll env j p Hret).
  rewrite (poll_busy env 30 j (prepared env j p));
    [|now apply still_queued_prepared].
  assert (Hn : n_acts (calls (add_calls
             (polled (cluster_id_constraint (job_id j)) 30)
             (prepared env j p))) = n_acts (calls p)).
  { unfold add_calls. cbn [calls].
    rewrite n_acts_app, n_acts_polled, n_acts_prepared. lia. }
  rewrite Hn. clear Hn.
  destruct p as [kj fin lg cl].
  destruct (on_act env _ Remove _) as [report|e].
  - destruct (removal_succeeded report);
      unfold outcome, job_after, process_after, prepared, escalated,
        add_calls, add_logs, set_known_jobs;
      cbn [fst snd known_jobs finalizers log calls];
      rewrite last_snoc, <- !app_assoc; auto.
  - unfold outcome, job_after, process_after, prepared, escalated,
      add_calls, add_logs, set_known_jobs;
      cbn [fst snd known_jobs finalizers log calls];
      rewrite <- !app_assoc; auto.
Qed.

Lemma removal_succeeded_iff (report : ActResult) :
  removal_succeeded report = true <->
  TotalSuccess report = 1 /\ TotalChangedAds report = 1.
Proof. unfold removal_succeeded. rewrite andb_true_iff, !Z.eqb_eq. tauto. Qed.

(** C3, the claim refuted: every query would find the job, but the
    retirement request raises; [close] raises with it, having made no
    query and asked for no removal. *)
Lemma close_retire_failure_skips_polls :
  let e := mkExn OtherException "Timed out trying to connect" in
  let env := holding_retire_failing e in
  let after := close env (running_job 7, process_with 7) in
  (forall i, on_query env i "ClusterId == 7" = Ok one_ad) /\
  one_ad <> [] /\
  outcome after = Raise e /\
  n_queries (calls (process_after after)) = 0%nat /\
  n_acts (calls (process_after after)) = 0%nat.
Proof.
  cbv zeta. split; [reflexivity|]. split; [discriminate|].
  repeat split.
Qed.

(** C3, amended. When the retirement request, if one is made, returns and
    every query of [close] returns at least one row, [close] makes
    exactly 30 queries, each after a one-second sleep, and then exactly one
    call [SCHEDD.act(Remove, "ClusterId == <id>")]; when that call reports,
    [close] takes the closing branch ("Forcefully closed", id discarded,
    status [closed], event set) exactly when [TotalSuccess] is 1 and
    [TotalChangedAds] is 1, and the failure branch otherwise. *)
Theorem close_forced_after_30_polls (env : Env) (j : Job) (p : Process) :
  retire_returns env j ->
  (forall i, exists rows,
      on_query env (n_queries (calls p) + i)
        (cluster_id_constraint (job_id j)) = Ok rows /\ rows <> []) ->
  let c := cluster_id_constraint (job_id j) in
  let after := close env (j, p) in
  calls (process_after after)
    = calls p ++ retire_calls j ++ polled c 30 ++ [CallAct Remove c] /\
  n_queries (calls (process_after after)) = (n_queries (calls p) + 30)%nat /\
  n_acts (calls (process_after after)) = (n_acts (calls p) + 1)%nat /\
  forall report,
    on_act env (n_acts (calls p)) Remove c = Ok report ->
    outcome after = Ok tt /\
    (TotalSuccess report = 1 /\ TotalChangedAds report = 1 ->
       last (log (process_after after))
         = Some (INFO, MsgForcefullyClosed (job_id j)) /\
       known_jobs (process_after after) = (known_jobs p ∖ {[job_id j]}) /\
       status (job_after after) = closed /\
       _event_finished (job_after after) = true) /\
    (~ (TotalSuccess report = 1 /\ TotalChangedAds report = 1) ->
       last (log (process_after after))
         = Some (ERROR, MsgFailedForcefulClose (job_id j)) /\
       known_jobs (process_after after) = known_jobs p /\
       job_after after = j).
Proof.
  intros Hret Hnever c after.
  assert (Hbusy : still_queued env c (calls p) 30).
  { intros i _. apply Hnever. }
  destruct (close_forced_trace env j p Hret Hbusy) as [Htr Hact].
  fold c after in Htr, Hact.
  split; [exact Htr|]. rewrite Htr.
  split.
  { rewrite !n_queries_app, n_queries_retire, n_queries_polled. cbn. lia. }
  split.
  { rewrite !n_acts_app, n_acts_retire, n_acts_polled. cbn. lia. }
  intros report Hrep. rewrite Hrep in Hact. destruct Hact as [Hout Hact].
  split; [exact Hout|].
  destruct (removal_succeeded report) eqn:E.
  - destruct Hact as (Hj & Hk & Hl). split.
    + intros _. rewrite Hj. auto.
    + intros Hno. apply removal_succeeded_iff in E. contradiction.
  - destruct Hact as (Hj & Hk & Hl). split.
    + intros Hyes. apply removal_succeeded_iff in Hyes. congruence.
    + auto.
Qed.


Lemma close_graceful_at_kth_poll_witness :
  let after :=
    close (scripted 7 2 (mkActResult 1 1)) (running_job 7, process_with 7) in
  outcome after = Ok tt /\
  known_jobs (process_after after) = ({[Some 7]} ∖ {[Some 7]}) /\
  (Some 7 ∉ known_jobs (process_after after)) /\
  status (job_after after) = closed /\
  _event_finished (job_after after) = true /\
  last (log (process_after after)) = Some (INFO, MsgGracefullyClosed (Some 7)) /\
  calls (process_after after)
    = [] ++ [CallRetire ["worker-0"]] ++ polled "ClusterId == 7" 3 /\
  n_acts (calls (process_after after)) = 0%nat.
Proof.
  apply (close_graceful_at_kth_poll (scripted 7 2 (mkActResult 1 1))
           (running_job 7) (process_with 7) 3).
  - lia.
  - intros _. exists "{}". reflexivity.
  - intros i Hi. exists one_ad. split; [|discriminate].
    destruct i as [|[|i]]; [reflexivity|reflexivity|simpl in Hi; lia].
  - reflexivity.
Defined.

Lemma close_forced_after_30_polls_witness :
  let after :=
    close (holding (Ok (mkActResult 1 1))) (running_job 7, process_with 7) in
  calls (process_after after)
    = [] ++ [CallRetire ["worker-0"]] ++ polled "ClusterId == 7" 30
        ++ [CallAct Remove "ClusterId == 7"] /\
  n_queries (calls (process_after after)) = 30%nat /\
  n_acts (calls (process_after after)) = 1%nat.
Proof.
  pose proof (close_forced_after_30_polls (holding (Ok (mkActResult 1 1)))
                (running_job 7) (process_with 7)) as H.
  cbv zeta in H.
  destruct H as (Htr & Hq & Ha & _).
  - intros _. exists "{}". reflexivity.
  - intros i. exists one_ad. split; [reflexivity|discriminate].
  - exact (conj Htr (conj Hq Ha)).
Defined.


(** ** Submitting a job *)

(** [sub], by the replies of the scheduler. *)
Lemma sub_replies (env : Env) (job : Submit) (p : Process) :
  sub env job p =
  match on_queue env job with
  | Raise e =>
      if is_internal_error e then
        (Ok None,
         add_logs [(ERROR, MsgException (exn_msg e))]
           (add_calls [CallQueue job] p))
      else (Raise e, add_calls [CallQueue job] p)
  | Ok (cid, ads) =>
      let p1 :=
        add_calls [CallQueue job; CallSpool ads]
          (add_logs [(DEBUG, MsgClassAds cid ads)] p) in
      match on_spool env ads with
      | Ok _ => (Ok (Some cid), p1)
      | Raise e =>
          if is_internal_error e then
            (Ok None, add_logs [(ERROR, MsgException (exn_msg e))] p1)
          else (Raise e, p1)
      end
  end.
Proof.
  destruct p as [kj fin lg cl].
  cbv beta iota zeta delta [sub try_except bind ret schedd_queue schedd_spool
    external logger add_call add_log add_calls add_logs is_internal_error
    fst snd known_jobs finalizers log calls].
  destruct (on_queue env job) as [[cid ads]|e].
  - cbv beta iota. destruct (on_spool env ads) as [u|e].
    + now rewrite <- app_assoc.
    + destruct (ExnClass_eqb (exn_class e) HTCondorInternalError);
        now rewrite <- !app_assoc.
  - destruct (ExnClass_eqb (exn_class e) HTCondorInternalError); reflexivity.
Qed.

(** [start], by what [sub] hands back. *)
Lemma start_after_sub (env : Env) (j : Job) (p : Process) :
  start env (j, p) =
  match sub env (mkSubmit (job_script j))
          (add_logs [(INFO, MsgStartingWorker (name j))] p) with
  | (Raise e, p1) => (Raise e, (j, p1))
  | (Ok r, p1) =>
      if truthy_opt_int r then
        (Ok tt,
         (set_status running (set_job_id r j),
          add_logs [(INFO, MsgStartingJob r)]
            (add_finalizer r (set_known_jobs ({[r]} ∪ known_jobs p1) p1))))
      else (Ok tt, (set_job_id r j, p1))
  end.
Proof.
  destruct p as [kj fin lg cl].
  unfold start. unfold bind at 1, get_self at 1. cbn [fst snd].
  unfold bind at 1, proc at 1, logger at 1. cbn [fst snd].
  unfold bind at 1, proc at 1. cbn [fst snd].
  unfold add_logs, add_log. cbn [known_jobs finalizers log calls].
  destruct (sub env _ _) as [[r|e] p1]; [|reflexivity].
  cbv beta iota zeta delta [bind update_self get_self fst snd set_job_id
    job_id].
  destruct (truthy_opt_int r); [|reflexivity].
  destruct p1 as [kj1 fin1 lg1 cl1].
  reflexivity.
Qed.

(** Every [close] that returns ended in one of three ways, told apart by
    its last log record. *)
Lemma close_cases (env : Env) (j : Job) (p : Process) :
  let after := close env (j, p) in
  outcome after = Ok tt ->
  (last (log (process_after after))
     = Some (INFO, MsgGracefullyClosed (job_id j)) /\
   known_jobs (process_after after) = known_jobs p ∖ {[job_id j]}) \/
  (last (log (process_after after))
     = Some (INFO, MsgForcefullyClosed (job_id j)) /\
   known_jobs (process_after after) = known_jobs p ∖ {[job_id j]}) \/
  (last (log (process_after after))
     = Some (ERROR, MsgFailedForcefulClose (job_id j)) /\
   known_jobs (process_after after) = known_jobs p /\
   job_after after = j).
Proof.
  intros after. subst after.
  assert (Hdec : retire_returns env j \/
                 exists e, _cluster j = true /\ on_retire env [name j] = Raise e).
  { unfold retire_returns. destruct (_cluster j); [|left; discriminate].
    destruct (on_retire env [name j]) as [r|e]; [left|right]; eauto. }
  destruct Hdec as [Hret|(e & Hc & He)].
  2:{ rewrite (close_retire_raise env j p e Hc He). discriminate. }
  rewrite (close_from_poll env j p Hret).
  pose proof (poll_cases env 30 j (prepared env j p)) as Hpoll.
  destruct (poll env 30 _) as [[[|]|e] [j' p']];
    unfold outcome, job_after, process_after; cbn [fst snd].
  - destruct Hpoll as (_ & _ & _ & Hk & Hl). intros _. left.
    rewrite Hl, Hk, last_snoc. auto.
  - destruct Hpoll as (_ & _ & Hj & Hk & Hl). subst j'.
    destruct (on_act env _ Remove _) as [report|e]; [|discriminate].
    destruct (removal_succeeded report); cbn [fst snd]; intros _;
      [right; left | right; right];
      unfold escalated, add_logs, add_calls, set_known_jobs;
      cbn [known_jobs finalizers log calls]; rewrite last_snoc, Hk; auto.
  - discriminate.
Qed.

(** C9. When the submit transaction succeeds with cluster id 0, [start]
    returns with [job_id] set to 0 but, 0 being falsy, adds nothing to
    [known_jobs], registers no finalizer and leaves the status as it was. *)
Theorem start_cluster_id_zero (env : Env) (j : Job) (p : Process)
    (ads : list ClassAd) :
  on_queue env (mkSubmit (job_script j)) = Ok (0, ads) ->
  on_spool env ads = Ok tt ->
  let after := start env (j, p) in
  outcome after = Ok tt /\
  job_id (job_after after) = Some 0 /\
  job_id (job_after after) <> None /\
  truthy_opt_int (job_id (job_after after)) = false /\
  known_jobs (process_after after) = known_jobs p /\
  finalizers (process_after after) = finalizers p /\
  status (job_after after) = status j.
Proof.
  intros Hq Hs after. subst after.
  rewrite start_after_sub, sub_replies, Hq. cbv zeta. rewrite Hs.
  cbn [truthy_opt_int Z.eqb negb].
  unfold outcome, job_after, process_after. cbn [fst snd].
  destruct p. cbn. repeat split; congruence.
Qed.

Lemma start_cluster_id_zero_witness :
  let after :=
    start (scripted 0 0 (mkActResult 1 1)) (fresh_job None, empty_process) in
  outcome after = Ok tt /\
  job_id (job_after after) = Some 0 /\
  job_id (job_after after) <> None /\
  truthy_opt_int (job_id (job_after after)) = false /\
  known_jobs (process_after after) = ∅ /\
  finalizers (process_after after) = [] /\
  status (job_after after) = created.
Proof.
  apply (start_cluster_id_zero (scripted 0 0 (mkActResult 1 1))
           (fresh_job None) empty_process one_ad); reflexivity.
Defined.

(** C4, the claim refuted: after a submit transaction that raises
    [HTCondorInternalError], the status of a freshly created job object is
    still [created], not [failed]. *)
Lemma start_internal_error_not_failed :
  let e := mkExn HTCondorInternalError "Failed to commit transaction" in
  let after := start (rejecting e) (fresh_job None, empty_process) in
  on_queue (rejecting e) (mkSubmit (job_script (fresh_job None))) = Raise e /\
  outcome after = Ok tt /\
  status (job_after after) = created /\
  status (job_after after) <> failed.
Proof. cbv zeta. repeat split. discriminate. Qed.

(** C4, amended. When the submit transaction, or the spooling that follows
    it, raises [HTCondorInternalError], [start] logs the error and returns
    with [job_id] set to [None]; [known_jobs], the registered finalizers
    and the status are as they were. *)
Theorem start_internal_error (env : Env) (j : Job) (p : Process) (e : Exn) :
  exn_class e = HTCondorInternalError ->
  on_queue env (mkSubmit (job_script j)) = Raise e \/
  (exists cid ads, on_queue env (mkSubmit (job_script j)) = Ok (cid, ads) /\
                   on_spool env ads = Raise e) ->
  let after := start env (j, p) in
  outcome after = Ok tt /\
  job_id (job_after after) = None /\
  known_jobs (process_after after) = known_jobs p /\
  finalizers (process_after after) = finalizers p /\
  status (job_after after) = status j /\
  last (log (process_after after)) = Some (ERROR, MsgException (exn_msg e)).
Proof.
  intros Hcls Hfail after. subst after.
  assert (Hint : is_internal_error e = true).
  { unfold is_internal_error. now rewrite Hcls. }
  rewrite start_after_sub, sub_replies.
  destruct Hfail as [Hq|(cid & ads & Hq & Hs)]; rewrite Hq.
  - rewrite Hint. cbn [truthy_opt_int].
    unfold outcome, job_after, process_after. cbn [fst snd].
    destruct p. unfold add_logs, add_calls.
    cbn [known_jobs finalizers log calls set_job_id job_id status].
    now rewrite last_snoc.
  - cbv zeta. rewrite Hs, Hint. cbn [truthy_opt_int].
    unfold outcome, job_after, process_after. cbn [fst snd].
    destruct p. unfold add_logs, add_calls.
    cbn [known_jobs finalizers log calls set_job_id job_id status].
    now rewrite last_snoc.
Qed.

Lemma start_internal_error_witness :
  let e := mkExn HTCondorInternalError "Failed to commit transaction" in
  let after := start (rejecting e) (running_job 3, process_with 3) in
  outcome after = Ok tt /\
  job_id (job_after after) = None /\
  known_jobs (process_after after) = {[Some 3]} /\
  finalizers (process_after after) = [Some 3] /\
  status (job_after after) = running /\
  last (log (process_after after))
    = Some (ERROR, MsgException "Failed to commit transaction").
Proof.
  apply (start_internal_error
           (rejecting (mkExn HTCondorInternalError
                         "Failed to commit transaction"))
           (running_job 3) (process_with 3)
           (mkExn HTCondorInternalError "Failed to commit transaction")).
  - reflexivity.
  - left. reflexivity.
Defined.

(** C1, the claim refuted.  The submit transaction hands back cluster id
    7 and the spooling that follows raises [HTCondorInternalError]:
    [start] returns, [job_id] is [None] and 7 is not in [known_jobs].
    Likewise, when the transaction hands back cluster id 0 and the
    spooling returns, [start] returns with that id and it is not in
    [known_jobs]. *)
Lemma start_returned_id_not_registered :
  (let e := mkExn HTCondorInternalError "Failed to spool job files" in
   let env := spool_failing e in
   let after := start env (fresh_job None, empty_process) in
   on_queue env (mkSubmit (job_script (fresh_job None))) = Ok (7, one_ad) /\
   on_spool env one_ad = Raise e /\
   outcome after = Ok tt /\
   job_id (job_after after) = None /\
   Some 7 ∉ known_jobs (process_after after)) /\
  (let env := scripted 0 0 (mkActResult 1 1) in
   let after := start env (fresh_job None, empty_process) in
   on_queue env (mkSubmit (job_script (fresh_job None))) = Ok (0, one_ad) /\
   on_spool env one_ad = Ok tt /\
   outcome after = Ok tt /\
   job_id (job_after after) = Some 0 /\
   Some 0 ∉ known_jobs (process_after after)).
Proof.
  cbv zeta. split; repeat split.
  - change (known_jobs (process_after
              (start (spool_failing
                        (mkExn HTCondorInternalError
                           "Failed to spool job files"))
                 (fresh_job None, empty_process))))
      with (∅ : gset (option Z)).
    apply not_elem_of_empty.
  - change (known_jobs (process_after
              (start (scripted 0 0 (mkActResult 1 1))
                 (fresh_job None, empty_process))))
      with (∅ : gset (option Z)).
    apply not_elem_of_empty.
Qed.

(** C1, amended. Whenever the submit transaction hands back a cluster id
    other than 0 and the spooling that follows it returns, that id is in
    [known_jobs] when [start] returns; and whenever [close] returns after logging
    "Gracefully closed" or "Forcefully closed", the id of the job is not in
    [known_jobs]. *)
Theorem registry_tracks_submitted_job (env : Env) (j : Job) (p : Process)
    (cid : Z) :
  (forall ads,
     on_queue env (mkSubmit (job_script j)) = Ok (cid, ads) ->
     on_spool env ads = Ok tt ->
     cid <> 0 ->
     let after := start env (j, p) in
     outcome after = Ok tt /\
     job_id (job_after after) = Some cid /\
     Some cid ∈ known_jobs (process_after after)) /\
  (job_id j = Some cid ->
   let after := close env (j, p) in
   outcome after = Ok tt ->
   last (log (process_after after))
     = Some (INFO, MsgGracefullyClosed (Some cid)) \/
   last (log (process_after after))
     = Some (INFO, MsgForcefullyClosed (Some cid)) ->
   Some cid ∉ known_jobs (process_after after)).
Proof.
  split.
  - intros ads Hq Hs Hnz after. subst after.
    rewrite start_after_sub, sub_replies, Hq. cbv zeta. rewrite Hs.
    assert (Ht : truthy_opt_int (Some cid) = true).
    { cbn. now apply negb_true_iff, Z.eqb_neq. }
    rewrite Ht. unfold outcome, job_after, process_after. cbn [fst snd].
    destruct p. cbn. repeat split.
    apply elem_of_union_l, elem_of_singleton. reflexivity.
  - intros Hid after Hout Hlast.
    destruct (close_cases env j p Hout) as [[_ Hk]|[[_ Hk]|[Hl _]]];
      fold after in Hk || fold after in Hl.
    + rewrite Hk, Hid, elem_of_difference, elem_of_singleton. tauto.
    + rewrite Hk, Hid, elem_of_difference, elem_of_singleton. tauto.
    + rewrite Hl in Hlast. destruct Hlast; discriminate.
Qed.

Lemma registry_tracks_submitted_job_witness :
  (let after :=
     start (scripted 7 2 (mkActResult 1 1)) (fresh_job None, empty_process) in
   outcome after = Ok tt /\
   job_id (job_after after) = Some 7 /\
   Some 7 ∈ known_jobs (process_after after)) /\
  (let after :=
     close (scripted 7 2 (mkActResult 1 1)) (running_job 7, process_with 7) in
   Some 7 ∉ known_jobs (process_after after)) /\
  (let after :=
     close (holding (Ok (mkActResult 1 1))) (running_job 7, process_with 7) in
   Some 7 ∉ known_jobs (process_after after)).
Proof.
  split; [|split].
  - apply (proj1 (registry_tracks_submitted_job
                    (scripted 7 2 (mkActResult 1 1))
                    (fresh_job None) empty_process 7) one_ad);
      [reflexivity | reflexivity | lia].
  - apply (proj2 (registry_tracks_submitted_job
                    (scripted 7 2 (mkActResult 1 1))
                    (running_job 7) (process_with 7) 7));
      [reflexivity | reflexivity | left; reflexivity].
  - apply (proj2 (registry_tracks_submitted_job
                    (holding (Ok (mkActResult 1 1)))
                    (running_job 7) (process_with 7) 7));
      [reflexivity | reflexivity | right; reflexivity].
Defined.

(** ** Failures of scheduler calls *)

(** The finalizer, by whether the id is still registered and by the reply
    to its removal. *)
Lemma close_job_replies (env : Env) (x : option Z) (p : Process) :
  _close_job env x p =
  if decide (x ∈ known_jobs p) then
    let p1 :=
      add_calls [CallAct Remove (cluster_id_constraint x)]
        (add_logs [(WARNING, MsgLastDitch x)] p) in
    match on_act env (n_acts (calls p)) Remove (cluster_id_constraint x) with
    | Ok _ => (Ok tt, set_known_jobs (known_jobs p ∖ {[x]}) p1)
    | Raise e => (Raise e, p1)
    end
  else (Ok tt, p).
Proof.
  destruct p as [kj fin lg cl].
  unfold _close_job. unfold bind at 1. cbn [known_jobs].
  destruct (decide (x ∈ kj)); [|reflexivity].
  cbv beta iota zeta delta [bind logger schedd_act external known_jobs_discard
    add_log add_call add_calls add_logs set_known_jobs
    known_jobs finalizers log calls].
  destruct (on_act env (n_acts cl) Remove _); reflexivity.
Qed.

(** C6, the claim refuted: the first query of [close] raises and [close]
    raises the same exception to its caller. *)
Lemma close_query_failure_propagates :
  let e := mkExn HTCondorIOError "Failed to fetch ads from schedd." in
  let env := unreachable e in
  on_query env 0 "ClusterId == 7" = Raise e /\
  outcome (close env (running_job 7, process_with 7)) = Raise e /\
  log (process_after (close env (running_job 7, process_with 7)))
    = [(INFO, MsgClosingWorker "worker-0" (Some 7) running);
       (DEBUG, MsgRetirementInfo "worker-0" "{}")].
Proof. cbv zeta. repeat split. Qed.

(** C6, amended. An exception raised by the submit transaction is caught
    in [start], and turned into an error log record, when its class is
    [HTCondorInternalError]; any other class goes up to the caller of
    [start].  An exception raised by a query or by the removal in [close],
    or by the removal in the finalizer [_close_job], goes up to the
    caller. *)
Theorem scheduler_failures_caught_or_raised (env : Env) (j : Job)
    (p : Process) (e : Exn) :
  (on_queue env (mkSubmit (job_script j)) = Raise e ->
   let after := start env (j, p) in
   if is_internal_error e then
     outcome after = Ok tt /\
     last (log (process_after after))
       = Some (ERROR, MsgException (exn_msg e))
   else outcome after = Raise e) /\
  (forall k,
     retire_returns env j ->
     (k < 30)%nat ->
     still_queued env (cluster_id_constraint (job_id j)) (calls p) k ->
     on_query env (n_queries (calls p) + k)
       (cluster_id_constraint (job_id j)) = Raise e ->
     outcome (close env (j, p)) = Raise e) /\
  (retire_returns env j ->
   still_queued env (cluster_id_constraint (job_id j)) (calls p) 30 ->
   on_act env (n_acts (calls p)) Remove (cluster_id_constraint (job_id j))
     = Raise e ->
   outcome (close env (j, p)) = Raise e) /\
  (job_id j ∈ known_jobs p ->
   on_act env (n_acts (calls p)) Remove (cluster_id_constraint (job_id j))
     = Raise e ->
   fst (_close_job env (job_id j) p) = Raise e).
Proof.
  repeat split.
  - intros Hq after. subst after.
    rewrite start_after_sub, sub_replies, Hq.
    destruct (is_internal_error e); unfold outcome, process_after;
      cbn [fst snd truthy_opt_int]; [|reflexivity].
    destruct p. unfold add_logs, add_calls. cbn [log].
    now rewrite last_snoc.
  - intros k Hret Hk Hbusy Hq.
    rewrite (close_from_poll env j p Hret).
    rewrite (poll_raise env k 30 j (prepared env j p) e Hk).
    + reflexivity.
    + now apply still_queued_prepared.
    + now rewrite n_queries_prepared.
  - intros Hret Hbusy Hact.
    pose proof (close_forced_trace env j p Hret Hbusy) as [_ H].
    rewrite Hact in H. apply H.
  - intros Hin Hact. rewrite close_job_replies.
    destruct (decide (job_id j ∈ known_jobs p)); [|contradiction].
    cbv zeta. now rewrite Hact.
Qed.

Lemma scheduler_failures_caught_or_raised_witness :
  let internal := mkExn HTCondorInternalError "Failed to commit transaction" in
  let io := mkExn HTCondorIOError "Failed to fetch ads from schedd." in
  outcome (start (rejecting internal) (fresh_job None, empty_process))
    = Ok tt /\
  outcome (start (rejecting io) (fresh_job None, empty_process)) = Raise io /\
  outcome (close (unreachable io) (running_job 7, process_with 7))
    = Raise io /\
  outcome (close (holding (Raise io)) (running_job 7, process_with 7))
    = Raise io /\
  fst (_close_job (holding (Raise io)) (Some 7) (process_with 7)) = Raise io.
Proof.
  cbv zeta.
  pose (internal := mkExn HTCondorInternalError "Failed to commit transaction").
  pose (io := mkExn HTCondorIOError "Failed to fetch ads from schedd.").
  split; [|split; [|split; [|split]]].
  - apply (proj1 (scheduler_failures_caught_or_raised (rejecting internal)
                    (fresh_job None) empty_process internal) eq_refl).
  - apply (proj1 (scheduler_failures_caught_or_raised (rejecting io)
                    (fresh_job None) empty_process io) eq_refl).
  - apply (proj1 (proj2 (scheduler_failures_caught_or_raised (unreachable io)
                    (running_job 7) (process_with 7) io)) 0%nat).
    + intros _. exists "{}". reflexivity.
    + lia.
    + intros i Hi. lia.
    + reflexivity.
  - apply (proj1 (proj2 (proj2 (scheduler_failures_caught_or_raised
                    (holding (Raise io)) (running_job 7) (process_with 7) io)))).
    + intros _. exists "{}". reflexivity.
    + intros i _. exists one_ad. split; [reflexivity|discriminate].
    + reflexivity.
  - apply (proj2 (proj2 (proj2 (scheduler_failures_caught_or_raised
                    (holding (Raise io)) (running_job 7) (process_with 7) io)))).
    + change (Some 7 ∈ ({[Some 7]} : gset (option Z))).
      now apply elem_of_singleton.
    + reflexivity.
Defined.

(** ** Construction *)

Lemma truthy_nonempty (d : string) : d <> "" -> truthy_opt_str (Some d) = true.
Proof.
  intros Hne. cbn. apply negb_true_iff. now apply String.eqb_neq.
Qed.

(** C10. The check of the log directory is a string-prefix test: whenever
    the configured string begins with the home directory string,
    construction goes through, and a non-empty string that does not begin
    with it is refused with [ValueError]; being a sub-path plays no part. *)
Theorem log_directory_check_is_prefix_test (env : Env) (image : string)
    (base : Job) (d : string) :
  log_directory base = Some d ->
  (startswith d (env_homedir env) = true ->
   is_raise (LPCCondorJob_init env image base) = false) /\
  (d <> "" -> startswith d (env_homedir env) = false ->
   exists msg,
     LPCCondorJob_init env image base = Raise (mkExn ValueError msg)).
Proof.
  intros Hd. unfold LPCCondorJob_init. rewrite Hd.
  change (default "" (Some d)) with d.
  split.
  - intros Hp. rewrite Hp. cbn [negb]. rewrite andb_false_r. reflexivity.
  - intros Hne Hp. rewrite Hp, (truthy_nonempty d Hne). cbn [negb andb].
    eexists. reflexivity.
Qed.

Lemma log_directory_check_is_prefix_test_witness :
  let env := scripted 7 0 (mkActResult 1 1) in
  env_homedir env = "/home/user" /\
  is_subpath "/home/user" "/home/username" = false /\
  startswith "/home/username" "/home/user" = true /\
  is_raise (LPCCondorJob_init env default_image
              (fresh_job (Some "/home/username"))) = false.
Proof.
  cbv zeta. split; [reflexivity|]. split; [reflexivity|].
  split; [reflexivity|].
  apply (proj1 (log_directory_check_is_prefix_test
                  (scripted 7 0 (mkActResult 1 1)) default_image
                  (fresh_job (Some "/home/username")) "/home/username"
                  eq_refl)).
  reflexivity.
Defined.

(** C8, the code against the claim.  With home [/home/user]: the log
    directory [/tmp/logs] is refused with [ValueError] and
    [/home/user/logs] is accepted, as claimed; but [/home/username], which
    is not a sub-path of the home directory, is accepted too. *)
Theorem log_directory_outside_home_accepted :
  let env := scripted 7 0 (mkActResult 1 1) in
  env_homedir env = "/home/user" /\
  (is_subpath "/home/user" "/tmp/logs" = false /\
   exists msg,
     LPCCondorJob_init env default_image (fresh_job (Some "/tmp/logs"))
       = Raise (mkExn ValueError msg)) /\
  (is_subpath "/home/user" "/home/user/logs" = true /\
   is_raise (LPCCondorJob_init env default_image
               (fresh_job (Some "/home/user/logs"))) = false) /\
  (is_subpath "/home/user" "/home/username" = false /\
   is_raise (LPCCondorJob_init env default_image
               (fresh_job (Some "/home/username"))) = false).
Proof.
  cbv zeta. repeat split. eexists. reflexivity.
Qed.

(** A dict handed to [setdefault] as the key cannot be hashed. *)
Lemma setdefault_dict_key (d k : list (PyKey * PyVal)) (dflt : PyVal) :
  dict_setdefault d (VDict k) dflt
  = Raise (mkExn TypeError "unhashable type: 'dict'").
Proof. reflexivity. Qed.

(** Whatever dict the caller passes as [scheduler_options], the
    constructor raises before it reaches the base class. *)
Lemma cluster_init_caller_dict (env : Env) (kwargs : gmap string PyVal)
    (d : list (PyKey * PyVal)) :
  kwargs !! "scheduler_options" = Some (VDict d) ->
  LPCCondorCluster_init env kwargs
  = Raise (mkExn TypeError "unhashable type: 'dict'").
Proof.
  intros Hk. unfold LPCCondorCluster_init. rewrite Hk.
  unfold call_setdefault. now rewrite setdefault_dict_key.
Qed.

(** Without [scheduler_options] the generated address is passed on. *)
Lemma cluster_init_default (env : Env) (kwargs : gmap string PyVal) :
  kwargs !! "scheduler_options" = None ->
  on_cluster_init env
    (<["scheduler_options" :=
         VDict [(KStr "host",
                 VStr (env_hostname env ++ ":" ++ str_int (env_port env))%string)]]>
       kwargs) = Ok tt ->
  LPCCondorCluster_init env kwargs = Ok tt.
Proof.
  intros Hk Hinit. unfold LPCCondorCluster_init. rewrite Hk.
  now rewrite Hinit.
Qed.

(** C7, the code against the claim.  A caller passes
    [scheduler_options={"host": "cmslpc101:8786"}]; the base constructor
    would accept these options, but [LPCCondorCluster.__init__] raises
    [TypeError] from its [setdefault] call: nothing is merged and
    construction fails. *)
Theorem cluster_init_caller_listen_address_fails :
  let env := scripted 7 0 (mkActResult 1 1) in
  let kwargs : gmap string PyVal :=
    {["scheduler_options" := VDict [(KStr "host", VStr "cmslpc101:8786")]]} in
  on_cluster_init env kwargs = Ok tt /\
  LPCCondorCluster_init env kwargs
  = Raise (mkExn TypeError "unhashable type: 'dict'").
Proof.
  cbv zeta. split; [reflexivity|].
  apply (cluster_init_caller_dict _ _ [(KStr "host", VStr "cmslpc101:8786")]).
  apply lookup_singleton_eq.
Qed.

(** ** The job header written by the constructor *)

Lemma header_get_set_eq (k v : string) (d : list (string * string)) :
  header_get k (header_set k v d) = Some v.
Proof.
  induction d as [|[k' v'] d IH]; cbn.
  - now rewrite String.eqb_refl.
  - destruct (String.eqb k k') eqn:E; cbn.
    + now rewrite String.eqb_refl.
    + now rewrite E.
Qed.

Lemma header_get_set_ne (k k' v : string) (d : list (string * string)) :
  k' <> k -> header_get k' (header_set k v d) = header_get k' d.
Proof.
  intros Hne. induction d as [|[k0 v0] d IH]; cbn.
  - apply String.eqb_neq in Hne. now rewrite Hne.
  - destruct (String.eqb k k0) eqn:E; cbn.
    + apply String.eqb_eq in E. subst k0.
      apply String.eqb_neq in Hne. now rewrite Hne.
    + now rewrite IH.
Qed.

Lemma header_keys_set_present (k v : string) (d : list (string * string)) :
  In k (header_keys d) -> header_keys (header_set k v d) = header_keys d.
Proof.
  induction d as [|[k' v'] d IH]; cbn; [tauto|].
  intros Hin. destruct (String.eqb k k') eqn:E; cbn.
  - apply String.eqb_eq in E. now subst.
  - f_equal. apply IH. destruct Hin as [->|Hin]; [|exact Hin].
    now rewrite String.eqb_refl in E.
Qed.

Lemma header_keys_set_absent (k v : string) (d : list (string * string)) :
  ~ In k (header_keys d) ->
  header_keys (header_set k v d) = header_keys d ++ [k].
Proof.
  induction d as [|[k' v'] d IH]; cbn; [reflexivity|].
  intros Hnin. destruct (String.eqb k k') eqn:E; cbn.
  - apply String.eqb_eq in E. subst. tauto.
  - f_equal. apply IH. tauto.
Qed.

(** One entry written: the keys already there stay where they are, no key
    is written twice. *)
Lemma header_set_keys (k v : string) (d : list (string * string)) :
  (exists tail, header_keys (header_set k v d) = header_keys d ++ tail) /\
  (List.NoDup (header_keys d) -> List.NoDup (header_keys (header_set k v d))).
Proof.
  destruct (List.in_dec String.string_dec k (header_keys d)) as [Hin|Hnin].
  - rewrite (header_keys_set_present k v d Hin). split; [|auto].
    exists []. now rewrite app_nil_r.
  - rewrite (header_keys_set_absent k v d Hnin). split; [now exists [k]|].
    intros Hnd. apply List.NoDup_app. repeat split.
    + exact Hnd.
    + repeat constructor. cbn. tauto.
    + intros x Hx [<-|[]]. contradiction.
Qed.

Lemma header_update_keys (new d : list (string * string)) :
  (exists tail, header_keys (header_update new d) = header_keys d ++ tail) /\
  (List.NoDup (header_keys d) ->
   List.NoDup (header_keys (header_update new d))).
Proof.
  unfold header_update. revert d.
  induction new as [|[k v] new IH]; intros d; cbn [fold_left fst snd].
  - split; [|auto]. exists []. now rewrite app_nil_r.
  - destruct (IH (header_set k v d)) as [[t2 Ht2] Hnd2].
    destruct (header_set_keys k v d) as [[t1 Ht1] Hnd1].
    split.
    + exists (t1 ++ t2). now rewrite Ht2, Ht1, app_assoc.
    + auto.
Qed.

(** What the constructor returns when it returns. *)
Lemma init_ok_inv (env : Env) (image : string) (base j : Job) :
  LPCCondorJob_init env image base = Ok j ->
  j = set_job_header_dict
        (header_update
           [("initialdir", env_homedir env);
            ("use_x509userproxy", "true");
            ("when_to_transfer_output", "ON_EXIT_OR_EVICT");
            ("transfer_output_files", "");
            ("+SingularityImage",
             (quote ++ (container_prefix ++ image) ++ quote)%string)]
           (job_header_dict base))
        base.
Proof.
  unfold LPCCondorJob_init.
  destruct (truthy_opt_str (log_directory base) && _); [discriminate|].
  now intros [= <-].
Qed.

Ltac header_lookup :=
  repeat (first [ rewrite header_get_set_eq
                | rewrite header_get_set_ne by discriminate ]);
  try reflexivity.

(** X1. A job object that is constructed carries the four fixed header
    entries of the facility, whatever the base class had put under these
    keys: [initialdir] is the home directory, [use_x509userproxy] is
    [true], [when_to_transfer_output] is [ON_EXIT_OR_EVICT] and
    [transfer_output_files] is empty. *)
Theorem init_writes_facility_header (env : Env) (image : string)
    (base j : Job) :
  LPCCondorJob_init env image base = Ok j ->
  header_get "initialdir" (job_header_dict j) = Some (env_homedir env) /\
  header_get "use_x509userproxy" (job_header_dict j) = Some "true" /\
  header_get "when_to_transfer_output" (job_header_dict j)
    = Some "ON_EXIT_OR_EVICT" /\
  header_get "transfer_output_files" (job_header_dict j) = Some "".
Proof.
  intros H. apply init_ok_inv in H. subst j.
  unfold header_update. cbn [set_job_header_dict job_header_dict fold_left
    fst snd].
  repeat split; header_lookup.
Qed.

(** X2. The image handed to the constructor reaches the header as
    [+SingularityImage], prefixed with
    [/cvmfs/unpacked.cern.ch/registry.hub.docker.com/] and wrapped in
    double quotes. *)
Theorem init_image_reference (env : Env) (image : string) (base j : Job) :
  LPCCondorJob_init env image base = Ok j ->
  header_get "+SingularityImage" (job_header_dict j)
  = Some (quote ++ "/cvmfs/unpacked.cern.ch/registry.hub.docker.com/"
            ++ image ++ quote)%string.
Proof.
  intros H. apply init_ok_inv in H. subst j.
  unfold header_update. cbn [set_job_header_dict job_header_dict fold_left
    fst snd].
  now rewrite header_get_set_eq.
Qed.

(** X3. The constructor touches nothing but these five header entries:
    every other header key keeps the value of the base class, and the
    other attributes of the object are as the base class left them. *)
Theorem init_keeps_the_rest (env : Env) (image : string) (base j : Job)
    (k : string) :
  LPCCondorJob_init env image base = Ok j ->
  ~ In k ["initialdir"; "use_x509userproxy"; "when_to_transfer_output";
          "transfer_output_files"; "+SingularityImage"] ->
  header_get k (job_header_dict j) = header_get k (job_header_dict base) /\
  name j = name base /\
  job_id j = job_id base /\
  status j = status base /\
  _event_finished j = _event_finished base /\
  _cluster j = _cluster base /\
  log_directory j = log_directory base.
Proof.
  intros H Hk. apply init_ok_inv in H. subst j.
  unfold header_update. cbn [set_job_header_dict job_header_dict fold_left
    fst snd name job_id status _event_finished _cluster log_directory].
  repeat split.
  cbn [In] in Hk.
  rewrite !header_get_set_ne; [reflexivity| | | | |]; intros ->; tauto.
Qed.

(** X4. The header entries that were there keep their order, the new keys
    follow them, and no key appears twice if none did before. *)
Theorem init_header_order (env : Env) (image : string) (base j : Job) :
  LPCCondorJob_init env image base = Ok j ->
  (exists tail,
     header_keys (job_header_dict j)
     = header_keys (job_header_dict base) ++ tail) /\
  (List.NoDup (header_keys (job_header_dict base)) ->
   List.NoDup (header_keys (job_header_dict j))).
Proof.
  intros H. apply init_ok_inv in H. subst j.
  cbn [set_job_header_dict job_header_dict].
  apply header_update_keys.
Qed.

(** X5. A job for which no log directory is configured ([log_directory]
    is [None]) is constructed whatever the home directory is: nothing is
    checked against it. *)
Theorem init_without_log_directory (env : Env) (image : string)
    (base : Job) :
  log_directory base = None ->
  exists j,
    LPCCondorJob_init env image base = Ok j /\ log_directory j = None.
Proof.
  intros H. unfold LPCCondorJob_init. rewrite H. cbn [truthy_opt_str andb].
  eexists. split; [reflexivity|]. exact H.
Qed.

Lemma init_writes_facility_header_witness :
  header_get "initialdir" (job_header_dict constructed_job)
    = Some "/home/user" /\
  header_get "use_x509userproxy" (job_header_dict constructed_job)
    = Some "true" /\
  header_get "when_to_transfer_output" (job_header_dict constructed_job)
    = Some "ON_EXIT_OR_EVICT" /\
  header_get "transfer_output_files" (job_header_dict constructed_job)
    = Some "".
Proof.
  apply (init_writes_facility_header (scripted 7 0 (mkActResult 1 1))
           "a/b:tag" base_job constructed_job).
  reflexivity.
Defined.

Lemma init_image_reference_witness :
  header_get "+SingularityImage" (job_header_dict constructed_job)
  = Some (quote ++ "/cvmfs/unpacked.cern.ch/registry.hub.docker.com/a/b:tag"
            ++ quote)%string.
Proof.
  apply (init_image_reference (scripted 7 0 (mkActResult 1 1))
           "a/b:tag" base_job constructed_job).
  reflexivity.
Defined.

Lemma init_keeps_the_rest_witness :
  header_get "universe" (job_header_dict constructed_job) = Some "vanilla" /\
  name constructed_job = "worker-0" /\
  job_id constructed_job = None /\
  status constructed_job = created /\
  _event_finished constructed_job = false /\
  _cluster constructed_job = true /\
  log_directory constructed_job = Some "/home/user/logs".
Proof.
  apply (init_keeps_the_rest (scripted 7 0 (mkActResult 1 1))
           "a/b:tag" base_job constructed_job "universe").
  - reflexivity.
  - cbn. intros [H|[H|[H|[H|[H|[]]]]]]; discriminate.
Defined.

Lemma init_header_order_witness :
  (exists tail,
     header_keys (job_header_dict constructed_job) = ["universe"] ++ tail) /\
  (List.NoDup ["universe"] ->
   List.NoDup (header_keys (job_header_dict constructed_job))).
Proof.
  apply (init_header_order (scripted 7 0 (mkActResult 1 1))
           "a/b:tag" base_job constructed_job).
  reflexivity.
Defined.

Lemma init_without_log_directory_witness :
  exists j,
    LPCCondorJob_init (scripted 7 0 (mkActResult 1 1)) default_image
      (fresh_job None) = Ok j /\ log_directory j = None.
Proof.
  apply (init_without_log_directory (scripted 7 0 (mkActResult 1 1))
           default_image (fresh_job None)).
  reflexivity.
Defined.

(** ** What [start] does in every case *)

Ltac trace_eq :=
  first [ reflexivity | now rewrite <- app_assoc | now rewrite <- !app_assoc ].

(** Every run of [start]: its trace, and either the registration of a
    non-zero id or no change to the registry and the finalizers. *)
Lemma start_summary (env : Env) (j : Job) (p : Process) :
  let after := start env (j, p) in
  let job := mkSubmit (job_script j) in
  calls (process_after after)
    = calls p ++ CallQueue job ::
        match on_queue env job with
        | Ok r => [CallSpool (snd r)]
        | Raise _ => []
        end /\
  ((exists cid,
      cid <> 0 /\
      outcome after = Ok tt /\
      job_after after = set_status running (set_job_id (Some cid) j) /\
      known_jobs (process_after after) = {[Some cid]} ∪ known_jobs p /\
      finalizers (process_after after) = finalizers p ++ [Some cid] /\
      last (log (process_after after))
        = Some (INFO, MsgStartingJob (Some cid)) /\
      exists ads, on_queue env job = Ok (cid, ads) /\ on_spool env ads = Ok tt)
   \/
   (known_jobs (process_after after) = known_jobs p /\
    finalizers (process_after after) = finalizers p /\
    ((exists e, outcome after = Raise e /\ is_internal_error e = false /\
                job_after after = j) \/
     (outcome after = Ok tt /\
      (job_after after = set_job_id None j \/
       job_after after = set_job_id (Some 0) j))))).
Proof.
  intros after job. subst after job.
  rewrite start_after_sub, sub_replies.
  destruct p as [kj fin lg cl].
  destruct (on_queue env _) as [[cid ads]|e].
  - cbv zeta. destruct (on_spool env ads) as [[]|e] eqn:Hs.
    + destruct (Z.eq_dec cid 0) as [->|Hnz].
      * cbn. split; [trace_eq|]. right. auto 10.
      * assert (Ht : truthy_opt_int (Some cid) = true).
        { cbn. now apply negb_true_iff, Z.eqb_neq. }
        rewrite Ht. unfold outcome, job_after, process_after.
        cbn [fst snd add_logs add_calls add_finalizer set_known_jobs
             known_jobs finalizers log calls].
        split; [trace_eq|]. left. exists cid.
        rewrite last_snoc. eauto 12.
    + destruct (is_internal_error e) eqn:E; cbn;
        (split; [trace_eq|]); right; eauto 10.
  - destruct (is_internal_error e) eqn:E; cbn;
      (split; [trace_eq|]); right; eauto 10.
Qed.

(** X6. Whatever the scheduler replies, [start] makes exactly one submit
    transaction, carrying the text of [job_script()]; it spools exactly
    when that transaction returned, passing on the ads it got; and it makes
    no other call: no query, no removal, no retirement, no sleep. *)
Theorem start_trace (env : Env) (j : Job) (p : Process) :
  let job := mkSubmit (job_script j) in
  calls (process_after (start env (j, p)))
  = calls p ++ CallQueue job ::
      match on_queue env job with
      | Ok r => [CallSpool (snd r)]
      | Raise _ => []
      end.
Proof. apply start_summary. Qed.

(** X7. [start] never removes an id from [known_jobs] nor a finalizer: the
    registry after it is the registry before, or that with the new
    [job_id] added, and the finalizers likewise. *)
Theorem start_only_adds_own_id (env : Env) (j : Job) (p : Process) :
  let after := start env (j, p) in
  known_jobs p ⊆ known_jobs (process_after after) /\
  (known_jobs (process_after after) = known_jobs p /\
   finalizers (process_after after) = finalizers p
   \/
   known_jobs (process_after after)
     = {[job_id (job_after after)]} ∪ known_jobs p /\
   finalizers (process_after after)
     = finalizers p ++ [job_id (job_after after)]).
Proof.
  intros after.
  destruct (start_summary env j p) as [_ [(cid & _ & _ & Hj & Hk & Hf & _)|
                                          (Hk & Hf & _)]];
    fold after in Hj || idtac; fold after in Hk, Hf; rewrite Hk, Hf.
  - rewrite Hj. cbn [job_id set_status set_job_id]. split; [|now right].
    apply union_subseteq_r.
  - split; [reflexivity | now left].
Qed.

(** X8. After a submission that returned a non-zero id, the status is
    [running], exactly one finalizer for that id has been registered after
    the ones there were, the finished event is untouched and the last log
    record is "Starting job". *)
Theorem start_success_state (env : Env) (j : Job) (p : Process) (cid : Z)
    (ads : list ClassAd) :
  on_queue env (mkSubmit (job_script j)) = Ok (cid, ads) ->
  on_spool env ads = Ok tt ->
  cid <> 0 ->
  let after := start env (j, p) in
  status (job_after after) = running /\
  finalizers (process_after after) = finalizers p ++ [Some cid] /\
  _event_finished (job_after after) = _event_finished j /\
  name (job_after after) = name j /\
  last (log (process_after after)) = Some (INFO, MsgStartingJob (Some cid)).
Proof.
  intros Hq Hs Hnz after.
  destruct (start_summary env j p) as [_ [(cid' & _ & _ & Hj & _ & Hf & Hl & ads' & Hq' & _)|
                                          (_ & _ & [(e & Ho & _)|[Ho Hj]])]];
    fold after in Hj || idtac; fold after in Hf || idtac;
    fold after in Hl || idtac; fold after in Ho || idtac.
  - rewrite Hq in Hq'. injection Hq' as <- <-.
    rewrite Hj, Hf, Hl. auto.
  - subst after. rewrite start_after_sub, sub_replies, Hq in Ho.
    cbv zeta in Ho. rewrite Hs in Ho. cbn in Ho.
    destruct (negb (cid =? 0)); discriminate.
  - subst after. rewrite start_after_sub, sub_replies, Hq in Hj.
    cbv zeta in Hj. rewrite Hs in Hj.
    assert (Ht : truthy_opt_int (Some cid) = true).
    { cbn. now apply negb_true_iff, Z.eqb_neq. }
    rewrite Ht in Hj. unfold job_after in Hj. cbn [fst snd] in Hj.
    destruct Hj as [Hj|Hj]; apply (f_equal job_id) in Hj; cbn in Hj;
      congruence.
Qed.

Lemma start_success_state_witness :
  let after :=
    start (scripted 7 2 (mkActResult 1 1)) (fresh_job None, process_with 3) in
  status (job_after after) = running /\
  finalizers (process_after after) = [Some 3] ++ [Some 7] /\
  _event_finished (job_after after) = false /\
  name (job_after after) = "worker-0" /\
  last (log (process_after after)) = Some (INFO, MsgStartingJob (Some 7)).
Proof.
  apply (start_success_state (scripted 7 2 (mkActResult 1 1))
           (fresh_job None) (process_with 3) 7 one_ad);
    [reflexivity | reflexivity | lia].
Defined.

(** X9. An exception that leaves [start] is never an
    [HTCondorInternalError], and it leaves the job object (no [job_id]
    assigned), the registry and the finalizers as they were. *)
Theorem start_raise_leaves_state (env : Env) (j : Job) (p : Process)
    (e : Exn) :
  let after := start env (j, p) in
  outcome after = Raise e ->
  exn_class e <> HTCondorInternalError /\
  job_after after = j /\
  known_jobs (process_after after) = known_jobs p /\
  finalizers (process_after after) = finalizers p.
Proof.
  intros after Hout.
  destruct (start_summary env j p) as [_ [(cid & _ & Ho & _)|
                                          (Hk & Hf & [(e' & Ho & Hi & Hj)|[Ho _]])]];
    fold after in Ho; try (rewrite Ho in Hout; discriminate).
  fold after in Hk, Hf, Hj. rewrite Ho in Hout. injection Hout as <-.
  repeat split; auto.
  intros Hc. unfold is_internal_error in Hi. now rewrite Hc in Hi.
Qed.

Lemma start_raise_leaves_state_witness :
  let io := mkExn HTCondorIOError "Failed to fetch ads from schedd." in
  let after := start (rejecting io) (fresh_job None, process_with 3) in
  exn_class io <> HTCondorInternalError /\
  job_after after = fresh_job None /\
  known_jobs (process_after after) = {[Some 3]} /\
  finalizers (process_after after) = [Some 3].
Proof.
  apply (start_raise_leaves_state
           (rejecting (mkExn HTCondorIOError "Failed to fetch ads from schedd."))
           (fresh_job None) (process_with 3)).
  reflexivity.
Defined.

(** ** What [close] does in every case *)

(** The loop makes between none and [n] rounds, and [n] of them when it
    runs to its end. *)
Lemma poll_shape (env : Env) (n : nat) (j : Job) (p : Process) :
  exists m,
    (m <= n)%nat /\
    calls (snd (snd (poll env n (j, p))))
      = calls p ++ polled (cluster_id_constraint (job_id j)) m /\
    (fst (poll env n (j, p)) = Ok false -> m = n) /\
    (fst (poll env n (j, p)) = Ok true -> (1 <= m)%nat).
Proof.
  revert p. induction n as [|n IH]; intros p.
  - exists 0%nat. cbn. rewrite app_nil_r. repeat split; auto. discriminate.
  - rewrite poll_round. cbv zeta.
    destruct (on_query env _ _) as [rows|e].
    + destruct (Nat.eqb (length rows) 0).
      * exists 1%nat. cbn [fst snd calls add_calls add_logs set_known_jobs].
        repeat split; try lia; try discriminate.
      * destruct (IH (add_calls
          [CallSleep 1; CallQuery (cluster_id_constraint (job_id j))] p))
          as (m & Hm & Htr & Hend & Hone).
        exists (S m). rewrite Htr. cbn [calls add_calls].
        rewrite polled_S, <- app_assoc.
        repeat split; try lia; auto.
    + exists 1%nat. cbn [fst snd calls add_calls].
      repeat split; try lia; try discriminate.
Qed.

Lemma prepared_fields (env : Env) (j : Job) (p : Process) :
  calls (prepared env j p) = calls p ++ retire_calls j /\
  known_jobs (prepared env j p) = known_jobs p /\
  finalizers (prepared env j p) = finalizers p.
Proof. now destruct p. Qed.

(** Every run of [close]: its trace and what it leaves of the job object,
    the registry and the finalizers. *)
Lemma close_summary (env : Env) (j : Job) (p : Process) :
  let after := close env (j, p) in
  let c := cluster_id_constraint (job_id j) in
  let closed_job := set_event_finished true (set_status closed j) in
  let untouched :=
    job_after after = j /\ known_jobs (process_after after) = known_jobs p in
  let discarded :=
    outcome after = Ok tt /\ job_after after = closed_job /\
    known_jobs (process_after after) = known_jobs p ∖ {[job_id j]} in
  finalizers (process_after after) = finalizers p /\
  exists m,
    (m <= 30)%nat /\
    ((calls (process_after after) = calls p ++ retire_calls j ++ polled c m /\
      ((exists e, outcome after = Raise e /\ untouched) \/
       ((1 <= m)%nat /\ discarded /\
        last (log (process_after after))
          = Some (INFO, MsgGracefullyClosed (job_id j)))))
     \/
     (m = 30%nat /\
      calls (process_after after)
        = calls p ++ retire_calls j ++ polled c 30 ++ [CallAct Remove c] /\
      ((exists e, outcome after = Raise e /\ untouched) \/
       (discarded /\
        last (log (process_after after))
          = Some (INFO, MsgForcefullyClosed (job_id j))) \/
       (outcome after = Ok tt /\ untouched /\
        last (log (process_after after))
          = Some (ERROR, MsgFailedForcefulClose (job_id j)))))).
Proof.
  intros after c closed_job untouched discarded.
  subst untouched discarded closed_job after.
  assert (Hdec : retire_returns env j \/
                 exists e, _cluster j = true /\ on_retire env [name j] = Raise e).
  { unfold retire_returns. destruct (_cluster j); [|left; discriminate].
    destruct (on_retire env [name j]) as [r|e]; [left|right]; eauto. }
  destruct Hdec as [Hret|(e & Hc & He)].
  2:{ rewrite (close_retire_raise env j p e Hc He).
      unfold outcome, job_after, process_after, retire_calls. rewrite Hc.
      destruct p as [kj fin lg cl]. cbn. split; [reflexivity|].
      exists 0%nat. split; [lia|]. left. cbn. split; [reflexivity|].
      left. eauto. }
  rewrite (close_from_poll env j p Hret).
  pose proof (poll_cases env 30 j (prepared env j p)) as Hpoll.
  destruct (poll_shape env 30 j (prepared env j p))
    as (m & Hm & Htr & Hend & Hone).
  destruct (prepared_fields env j p) as (Hpc & Hpk & Hpf).
  rewrite Hpc in Htr. rewrite Hpk, Hpf in Hpoll. clear Hpc Hpk Hpf.
  destruct (poll env 30 _) as [[[|]|e] [j' p']];
    cbn [fst snd] in Htr, Hend, Hone.
  - destruct Hpoll as (_ & Hf & Hj & Hk & Hl).
    unfold outcome, job_after, process_after. cbn [fst snd].
    split; [exact Hf|]. exists m. split; [exact Hm|]. left.
    split; [now rewrite Htr, <- app_assoc|]. right.
    rewrite Hl, last_snoc. auto.
  - destruct Hpoll as (_ & Hf & Hj & Hk & Hl). subst j'.
    specialize (Hend eq_refl). subst m.
    assert (Hcalls : calls (escalated j p')
              = calls p ++ retire_calls j ++ polled c 30
                  ++ [CallAct Remove c]).
    { unfold escalated, add_calls, add_logs. cbn [calls].
      now rewrite Htr, <- !app_assoc. }
    destruct (on_act env _ Remove _) as [report|e];
      [destruct (removal_succeeded report)|];
      unfold outcome, job_after, process_after;
      cbn [fst snd add_logs set_known_jobs known_jobs finalizers log calls];
      cbn [escalated add_calls add_logs known_jobs finalizers log calls]
        in Hcalls |- *;
      (split; [exact Hf|]); exists 30%nat; (split; [lia|]); right;
      (split; [reflexivity|]); (split; [exact Hcalls|]).
    + right. left. rewrite last_snoc, Hk. auto.
    + right. right. rewrite last_snoc, Hk. auto.
    + left. exists e. rewrite Hk. auto.
  - destruct Hpoll as (_ & Hf & Hj & Hk & Hl). subst j'.
    unfold outcome, job_after, process_after. cbn [fst snd].
    split; [exact Hf|]. exists m. split; [exact Hm|]. left.
    split; [now rewrite Htr, <- app_assoc|]. left. eauto.
Qed.

(** X10. Whatever the scheduler and the worker pool reply, the calls of
    [close] are: the retirement request if the job is bound to a cluster,
    then at most 30 rounds of a one-second sleep and a query by cluster
    id, then at most one removal, which is only asked for after all 30
    rounds. *)
Theorem close_trace_shape (env : Env) (j : Job) (p : Process) :
  let c := cluster_id_constraint (job_id j) in
  let tr := calls (process_after (close env (j, p))) in
  (exists m, (m <= 30)%nat /\
     (tr = calls p ++ retire_calls j ++ polled c m \/
      tr = calls p ++ retire_calls j ++ polled c 30 ++ [CallAct Remove c])) /\
  (n_queries tr <= n_queries (calls p) + 30)%nat /\
  (n_acts tr <= n_acts (calls p) + 1)%nat.
Proof.
  intros c tr. subst tr.
  destruct (close_summary env j p) as (_ & m & Hm & [[Htr _]|(_ & Htr & _)]);
    fold c in Htr; rewrite Htr;
    rewrite !n_queries_app, !n_acts_app, n_queries_retire, n_acts_retire,
      !n_queries_polled, !n_acts_polled.
  - split; [exists m; auto|]. lia.
  - split; [exists m; auto|]. cbn. lia.
Qed.

(** X11. [close] changes the registry by at most discarding the job's own
    id, registers or drops no finalizer, and leaves the id and the name of
    the job as they are. *)
Theorem close_registry_frame (env : Env) (j : Job) (p : Process) :
  let after := close env (j, p) in
  (known_jobs (process_after after) = known_jobs p \/
   known_jobs (process_after after) = known_jobs p ∖ {[job_id j]}) /\
  finalizers (process_after after) = finalizers p /\
  job_id (job_after after) = job_id j /\
  name (job_after after) = name j.
Proof.
  intros after.
  destruct (close_summary env j p) as (Hf & m & _ & Hcases).
  fold after in Hf, Hcases. split; [|split; [exact Hf|]].
  - destruct Hcases as [(_ & [(e & _ & _ & Hk)|(_ & (_ & _ & Hk) & _)])
                       |(_ & _ & [(e & _ & _ & Hk)
                                 |[((_ & _ & Hk) & _)|(_ & (_ & Hk) & _)]])];
      auto.
  - destruct Hcases as [(_ & [(e & _ & Hj & _)|(_ & (_ & Hj & _) & _)])
                       |(_ & _ & [(e & _ & Hj & _)
                                 |[((_ & Hj & _) & _)|(_ & (Hj & _) & _)]])];
      rewrite Hj; auto.
Qed.

(** X12. When the job is bound to a cluster and the retirement request
    raises, [close] raises the same exception at once: no query is made,
    and the job object and the registry stay as they were. *)
Theorem close_retire_failure (env : Env) (j : Job) (p : Process) (e : Exn) :
  _cluster j = true ->
  on_retire env [name j] = Raise e ->
  let after := close env (j, p) in
  outcome after = Raise e /\
  calls (process_after after) = calls p ++ [CallRetire [name j]] /\
  job_after after = j /\
  known_jobs (process_after after) = known_jobs p.
Proof.
  intros Hc He after. subst after.
  rewrite (close_retire_raise env j p e Hc He). now destruct p.
Qed.

Lemma close_retire_failure_witness :
  let e := mkExn OtherException "Timed out trying to connect" in
  let after := close (retire_failing e) (running_job 7, process_with 7) in
  outcome after = Raise e /\
  calls (process_after after) = [] ++ [CallRetire ["worker-0"]] /\
  job_after after = running_job 7 /\
  known_jobs (process_after after) = {[Some 7]}.
Proof.
  apply (close_retire_failure
           (retire_failing (mkExn OtherException "Timed out trying to connect"))
           (running_job 7) (process_with 7)); reflexivity.
Defined.

(** X13. Whenever [close] raises, the job object is as it was (status and
    finished event included) and its id is still in the registry if it was
    there. *)
Theorem close_raise_leaves_state (env : Env) (j : Job) (p : Process)
    (e : Exn) :
  let after := close env (j, p) in
  outcome after = Raise e ->
  job_after after = j /\
  known_jobs (process_after after) = known_jobs p.
Proof.
  intros after Hout.
  destruct (close_summary env j p) as (_ & m & _ & Hcases).
  fold after in Hcases.
  destruct Hcases as [(_ & [(e' & _ & H)|(_ & (Ho & _) & _)])
                     |(_ & _ & [(e' & _ & H)
                               |[((Ho & _) & _)|(Ho & _)]])];
    auto; rewrite Ho in Hout; discriminate.
Qed.

Lemma close_raise_leaves_state_witness :
  let io := mkExn HTCondorIOError "Failed to fetch ads from schedd." in
  let after := close (unreachable io) (running_job 7, process_with 7) in
  job_after after = running_job 7 /\
  known_jobs (process_after after) = {[Some 7]}.
Proof.
  apply (close_raise_leaves_state
           (unreachable (mkExn HTCondorIOError
                           "Failed to fetch ads from schedd."))
           (running_job 7) (process_with 7)
           (mkExn HTCondorIOError "Failed to fetch ads from schedd.")).
  reflexivity.
Defined.

(** X14. Whenever [close] returns, either the job is closed (status
    [closed], finished event set, id out of the registry) or the last log
    record is the error "Failed to forcefully close" and the job object
    and the registry are unchanged: it never returns silently with the job
    left open. *)
Theorem close_returns_closed_or_error (env : Env) (j : Job) (p : Process) :
  let after := close env (j, p) in
  outcome after = Ok tt ->
  (status (job_after after) = closed /\
   _event_finished (job_after after) = true /\
   job_id j ∉ known_jobs (process_after after))
  \/
  (last (log (process_after after))
     = Some (ERROR, MsgFailedForcefulClose (job_id j)) /\
   job_after after = j /\
   known_jobs (process_after after) = known_jobs p).
Proof.
  intros after Hout.
  destruct (close_summary env j p) as (_ & m & _ & Hcases).
  fold after in Hcases.
  assert (Hgone : forall s : gset (option Z), job_id j ∉ s ∖ {[job_id j]}).
  { intros s. rewrite elem_of_difference, elem_of_singleton. tauto. }
  destruct Hcases as [(_ & [(e' & Ho & _)|(_ & (_ & Hj & Hk) & _)])
                     |(_ & _ & [(e' & Ho & _)
                               |[((_ & Hj & Hk) & _)|(_ & (Hj & Hk) & Hl)]])];
    try (rewrite Ho in Hout; discriminate).
  - left. rewrite Hj, Hk. auto.
  - left. rewrite Hj, Hk. auto.
  - right. auto.
Qed.

Lemma close_returns_closed_or_error_witness :
  let after :=
    close (holding (Ok (mkActResult 2 2))) (running_job 7, process_with 7) in
  (status (job_after after) = closed /\
   _event_finished (job_after after) = true /\
   Some 7 ∉ known_jobs (process_after after))
  \/
  (last (log (process_after after))
     = Some (ERROR, MsgFailedForcefulClose (Some 7)) /\
   job_after after = running_job 7 /\
   known_jobs (process_after after) = {[Some 7]}).
Proof.
  apply (close_returns_closed_or_error (holding (Ok (mkActResult 2 2)))
           (running_job 7) (process_with 7)).
  reflexivity.
Defined.

(** ** The finalizer *)

Lemma close_job_absent (env : Env) (x : option Z) (p : Process) :
  x ∉ known_jobs p -> _close_job env x p = (Ok tt, p).
Proof.
  intros Hx. rewrite close_job_replies.
  destruct (decide (x ∈ known_jobs p)); [contradiction|reflexivity].
Qed.

Lemma discard_absent (x : option Z) (s : gset (option Z)) :
  x ∉ s ∖ {[x]}.
Proof. rewrite elem_of_difference, elem_of_singleton. tauto. Qed.

(** X15. The finalizer of an id that is no longer in the registry does
    nothing at all: no log record, no call to the scheduler, no change. *)
Theorem finalizer_unregistered_noop (env : Env) (x : option Z)
    (p : Process) :
  x ∉ known_jobs p -> _close_job env x p = (Ok tt, p).
Proof. apply close_job_absent. Qed.

Lemma finalizer_unregistered_noop_witness :
  _close_job (holding (Ok (mkActResult 1 1))) (Some 7) (process_with 3)
  = (Ok tt, process_with 3).
Proof.
  apply (finalizer_unregistered_noop (holding (Ok (mkActResult 1 1)))
           (Some 7) (process_with 3)).
  change (Some 7 ∉ ({[Some 3]} : gset (option Z))).
  rewrite elem_of_singleton. discriminate.
Defined.

(** X16. The finalizer of a registered id logs a warning, asks the
    scheduler once to remove the job, and discards the id as soon as that
    call returns, whatever counts the report carries; the other ids and
    the finalizers stay. *)
Theorem finalizer_removes_registered (env : Env) (x : option Z)
    (p : Process) (report : ActResult) :
  x ∈ known_jobs p ->
  on_act env (n_acts (calls p)) Remove (cluster_id_constraint x)
    = Ok report ->
  let r := _close_job env x p in
  fst r = Ok tt /\
  known_jobs (snd r) = known_jobs p ∖ {[x]} /\
  (x ∉ known_jobs (snd r)) /\
  log (snd r) = log p ++ [(WARNING, MsgLastDitch x)] /\
  calls (snd r) = calls p ++ [CallAct Remove (cluster_id_constraint x)] /\
  finalizers (snd r) = finalizers p.
Proof.
  intros Hin Hact r. subst r. rewrite close_job_replies.
  destruct (decide (x ∈ known_jobs p)); [|contradiction].
  cbv zeta. rewrite Hact. cbn. repeat split. apply discard_absent.
Qed.

Lemma finalizer_removes_registered_witness :
  let r :=
    _close_job (holding (Ok (mkActResult 0 0))) (Some 7) (process_with 7) in
  fst r = Ok tt /\
  known_jobs (snd r) = ({[Some 7]} : gset (option Z)) ∖ {[Some 7]} /\
  (Some 7 ∉ known_jobs (snd r)) /\
  log (snd r) = [] ++ [(WARNING, MsgLastDitch (Some 7))] /\
  calls (snd r) = [] ++ [CallAct Remove "ClusterId == 7"] /\
  finalizers (snd r) = [Some 7].
Proof.
  apply (finalizer_removes_registered (holding (Ok (mkActResult 0 0)))
           (Some 7) (process_with 7) (mkActResult 0 0)).
  - change (Some 7 ∈ ({[Some 7]} : gset (option Z))).
    now apply elem_of_singleton.
  - reflexivity.
Defined.

(** X17. When the removal asked for by the finalizer raises, the id stays
    in the registry: the warning has been logged and the removal has been
    asked for once, nothing else has changed. *)
Theorem finalizer_failure_keeps_id (env : Env) (x : option Z) (p : Process)
    (e : Exn) :
  x ∈ known_jobs p ->
  on_act env (n_acts (calls p)) Remove (cluster_id_constraint x) = Raise e ->
  let r := _close_job env x p in
  fst r = Raise e /\
  known_jobs (snd r) = known_jobs p /\
  (x ∈ known_jobs (snd r)) /\
  log (snd r) = log p ++ [(WARNING, MsgLastDitch x)] /\
  calls (snd r) = calls p ++ [CallAct Remove (cluster_id_constraint x)].
Proof.
  intros Hin Hact r. subst r. rewrite close_job_replies.
  destruct (decide (x ∈ known_jobs p)); [|contradiction].
  cbv zeta. rewrite Hact. cbn. auto.
Qed.

Lemma finalizer_failure_keeps_id_witness :
  let io := mkExn HTCondorIOError "Failed to fetch ads from schedd." in
  let r := _close_job (holding (Raise io)) (Some 7) (process_with 7) in
  fst r = Raise io /\
  known_jobs (snd r) = {[Some 7]} /\
  (Some 7 ∈ known_jobs (snd r)) /\
  log (snd r) = [] ++ [(WARNING, MsgLastDitch (Some 7))] /\
  calls (snd r) = [] ++ [CallAct Remove "ClusterId == 7"].
Proof.
  apply (finalizer_failure_keeps_id
           (holding (Raise (mkExn HTCondorIOError
                              "Failed to fetch ads from schedd.")))
           (Some 7) (process_with 7)).
  - change (Some 7 ∈ ({[Some 7]} : gset (option Z))).
    now apply elem_of_singleton.
  - reflexivity.
Defined.

(** X18. A finalizer that has returned has nothing left to do: run again
    for the same id, it makes no call and changes nothing. *)
Theorem finalizer_runs_once (env : Env) (x : option Z) (p : Process) :
  let r := _close_job env x p in
  fst r = Ok tt ->
  _close_job env x (snd r) = (Ok tt, snd r).
Proof.
  intros r Hok. subst r. apply close_job_absent.
  rewrite close_job_replies in Hok |- *.
  destruct (decide (x ∈ known_jobs p)) as [Hin|Hnin]; [|exact Hnin].
  cbv zeta in Hok |- *.
  destruct (on_act env _ Remove _); [|discriminate].
  cbn. apply discard_absent.
Qed.

Lemma finalizer_runs_once_witness :
  let r :=
    _close_job (holding (Ok (mkActResult 1 1))) (Some 7) (process_with 7) in
  _close_job (holding (Ok (mkActResult 1 1))) (Some 7) (snd r)
  = (Ok tt, snd r).
Proof.
  apply (finalizer_runs_once (holding (Ok (mkActResult 1 1))) (Some 7)
           (process_with 7)).
  reflexivity.
Defined.

(** X19. Once [close] has turned the status of a job to [closed], the
    finalizer registered for that job does nothing: no second removal is
    asked for. *)
Theorem finalizer_after_close_noop (env : Env) (j : Job) (p : Process) :
  let after := close env (j, p) in
  status j <> closed ->
  status (job_after after) = closed ->
  _close_job env (job_id j) (process_after after)
  = (Ok tt, process_after after).
Proof.
  intros after Hopen Hclosed. apply close_job_absent.
  destruct (close_summary env j p) as (_ & m & _ & Hcases).
  fold after in Hcases.
  destruct Hcases as [(_ & [(e' & _ & Hj & _)|(_ & (_ & _ & Hk) & _)])
                     |(_ & _ & [(e' & _ & Hj & _)
                               |[((_ & _ & Hk) & _)|(_ & (Hj & _) & _)]])];
    try (rewrite Hj in Hclosed; contradiction);
    rewrite Hk; apply discard_absent.
Qed.

Lemma finalizer_after_close_noop_witness :
  let env := scripted 7 2 (mkActResult 1 1) in
  let after := close env (running_job 7, process_with 7) in
  _close_job env (Some 7) (process_after after)
  = (Ok tt, process_after after).
Proof.
  apply (finalizer_after_close_noop (scripted 7 2 (mkActResult 1 1))
           (running_job 7) (process_with 7)).
  - discriminate.
  - reflexivity.
Defined.

(** ** Submitting, then tearing down *)

Lemma start_makes_no_act (env : Env) (j : Job) (p : Process) :
  n_acts (calls (process_after (start env (j, p)))) = n_acts (calls p).
Proof.
  destruct (start_summary env j p) as [Htr _]. rewrite Htr.
  rewrite n_acts_app.
  destruct (on_queue env _); cbn; lia.
Qed.

Lemma union_discard (x : option Z) (s : gset (option Z)) :
  x ∉ s -> ({[x]} ∪ s) ∖ {[x]} = s.
Proof.
  intros Hx. apply set_eq. intros y.
  rewrite elem_of_difference, elem_of_union, elem_of_singleton.
  split.
  - intros [[->|Hy] Hne]; [contradiction | exact Hy].
  - intros Hy. split; [now right|]. intros ->. contradiction.
Qed.

(** X20. A job that was submitted under a fresh non-zero id and whose
    object is dropped without [close]: its finalizer, when the removal
    returns, puts the registry back to what it was before the submission. *)
Theorem start_then_finalizer_restores_registry (env : Env) (j : Job)
    (p : Process) (cid : Z) (ads : list ClassAd) (report : ActResult) :
  on_queue env (mkSubmit (job_script j)) = Ok (cid, ads) ->
  on_spool env ads = Ok tt ->
  cid <> 0 ->
  Some cid ∉ known_jobs p ->
  on_act env (n_acts (calls p)) Remove (cluster_id_constraint (Some cid))
    = Ok report ->
  let started := start env (j, p) in
  let r := _close_job env (Some cid) (process_after started) in
  In (Some cid) (finalizers (process_after started)) /\
  fst r = Ok tt /\
  known_jobs (snd r) = known_jobs p.
Proof.
  intros Hq Hs Hnz Hfresh Hact started r.
  assert (Hk : known_jobs (process_after started) = {[Some cid]} ∪ known_jobs p
               /\ finalizers (process_after started)
                  = finalizers p ++ [Some cid]).
  { destruct (start_summary env j p)
      as [_ [(cid' & _ & _ & _ & Hk & Hf & _ & ads' & Hq' & _)|
             (_ & _ & [(e & Ho & _)|[_ Hj]])]].
    - rewrite Hq in Hq'. injection Hq' as <- <-. auto.
    - rewrite start_after_sub, sub_replies, Hq in Ho. cbv zeta in Ho.
      rewrite Hs in Ho. cbn in Ho. destruct (negb (cid =? 0)); discriminate.
    - rewrite start_after_sub, sub_replies, Hq in Hj. cbv zeta in Hj.
      rewrite Hs in Hj.
      assert (Ht : truthy_opt_int (Some cid) = true).
      { cbn. now apply negb_true_iff, Z.eqb_neq. }
      rewrite Ht in Hj. unfold job_after in Hj. cbn [fst snd] in Hj.
      destruct Hj as [Hj|Hj]; apply (f_equal job_id) in Hj; cbn in Hj;
        congruence. }
  destruct Hk as [Hk Hf]. subst r started. rewrite close_job_replies.
  rewrite Hk, Hf.
  destruct (decide (Some cid ∈ {[Some cid]} ∪ known_jobs p)) as [_|Hno].
  2:{ exfalso. apply Hno. apply elem_of_union_l. now apply elem_of_singleton. }
  cbv zeta. rewrite start_makes_no_act, Hact.
  cbn [fst snd set_known_jobs known_jobs].
  split; [apply List.in_or_app; right; now left|].
  split; [reflexivity|]. now apply union_discard.
Qed.

Lemma start_then_finalizer_restores_registry_witness :
  let env := holding (Ok (mkActResult 1 1)) in
  let started := start env (fresh_job None, process_with 3) in
  let r := _close_job env (Some 7) (process_after started) in
  In (Some 7) (finalizers (process_after started)) /\
  fst r = Ok tt /\
  known_jobs (snd r) = {[Some 3]}.
Proof.
  apply (start_then_finalizer_restores_registry
           (holding (Ok (mkActResult 1 1))) (fresh_job None) (process_with 3)
           7 one_ad (mkActResult 1 1)).
  - reflexivity.
  - reflexivity.
  - lia.
  - change (Some 7 ∉ ({[Some 3]} : gset (option Z))).
    rewrite elem_of_singleton. discriminate.
  - reflexivity.
Defined.

(** X21. A job that was submitted under a fresh non-zero id and then
    closed: if [close] leaves it with status [closed], the registry is
    again what it was before the submission. *)
Theorem start_then_close_restores_registry (env : Env) (j : Job)
    (p : Process) (cid : Z) (ads : list ClassAd) :
  on_queue env (mkSubmit (job_script j)) = Ok (cid, ads) ->
  on_spool env ads = Ok tt ->
  cid <> 0 ->
  Some cid ∉ known_jobs p ->
  let started := start env (j, p) in
  let after := close env (job_after started, process_after started) in
  status (job_after after) = closed ->
  known_jobs (process_after after) = known_jobs p.
Proof.
  intros Hq Hs Hnz Hfresh started after Hclosed.
  assert (Hst : job_after started = set_status running (set_job_id (Some cid) j)
               /\ known_jobs (process_after started)
                  = {[Some cid]} ∪ known_jobs p).
  { destruct (start_summary env j p)
      as [_ [(cid' & _ & _ & Hj & Hk & _ & _ & ads' & Hq' & _)|
             (_ & _ & [(e & Ho & _)|[_ Hj]])]].
    - rewrite Hq in Hq'. injection Hq' as <- <-. auto.
    - rewrite start_after_sub, sub_replies, Hq in Ho. cbv zeta in Ho.
      rewrite Hs in Ho. cbn in Ho. destruct (negb (cid =? 0)); discriminate.
    - rewrite start_after_sub, sub_replies, Hq in Hj. cbv zeta in Hj.
      rewrite Hs in Hj.
      assert (Ht : truthy_opt_int (Some cid) = true).
      { cbn. now apply negb_true_iff, Z.eqb_neq. }
      rewrite Ht in Hj. unfold job_after in Hj. cbn [fst snd] in Hj.
      destruct Hj as [Hj|Hj]; apply (f_equal job_id) in Hj; cbn in Hj;
        congruence. }
  destruct Hst as [Hj Hk]. fold started in Hj, Hk.
  destruct (close_summary env (job_after started) (process_after started))
    as (_ & m & _ & Hcases).
  fold after in Hcases.
  assert (Hid : job_id (job_after started) = Some cid) by now rewrite Hj.
  assert (Hrun : status (job_after started) <> closed)
    by (rewrite Hj; discriminate).
  destruct Hcases as [(_ & [(e' & _ & Hj' & _)|(_ & (_ & _ & Hk') & _)])
                     |(_ & _ & [(e' & _ & Hj' & _)
                               |[((_ & _ & Hk') & _)|(_ & (Hj' & _) & _)]])];
    try (rewrite Hj' in Hclosed; contradiction);
    rewrite Hk', Hk, Hid; now apply union_discard.
Qed.

Lemma start_then_close_restores_registry_witness :
  let env := scripted 7 2 (mkActResult 1 1) in
  let started := start env (fresh_job None, process_with 3) in
  let after := close env (job_after started, process_after started) in
  known_jobs (process_after after) = {[Some 3]}.
Proof.
  apply (start_then_close_restores_registry (scripted 7 2 (mkActResult 1 1))
           (fresh_job None) (process_with 3) 7 one_ad).
  - reflexivity.
  - reflexivity.
  - lia.
  - change (Some 7 ∉ ({[Some 3]} : gset (option Z))).
    rewrite elem_of_singleton. discriminate.
  - reflexivity.
Defined.

(** ** The constructor of the cluster *)

(** The options that the constructor generates. *)
Lemma cluster_init_no_options (env : Env) (kwargs : gmap string PyVal) :
  kwargs !! "scheduler_options" = None ->
  LPCCondorCluster_init env kwargs =
  match on_cluster_init env
          (<["scheduler_options" :=
               VDict [(KStr "host",
                       VStr (env_hostname env ++ ":"
                               ++ str_int (env_port env))%string)]]> kwargs)
  with
  | Ok h => Ok h
  | Raise e =>
      if exn_isinstance (exn_class e) OSError then
        Raise (mkExn RuntimeError
                 ("Likely failed to bind to local port "
                    ++ str_int (env_port env) ++ ", try rerunning")%string)
      else Raise e
  end.
Proof. intros Hk. unfold LPCCondorCluster_init. now rewrite Hk. Qed.

Lemma cluster_init_with_options (env : Env) (kwargs : gmap string PyVal)
    (v : PyVal) :
  kwargs !! "scheduler_options" = Some v ->
  exists e,
    LPCCondorCluster_init env kwargs = Raise e /\
    (exn_class e = TypeError \/ exn_class e = AttributeError).
Proof.
  intros Hk. unfold LPCCondorCluster_init. rewrite Hk.
  destruct v; cbn; eauto.
Qed.

Lemma ExnClass_eqb_eq (a b : ExnClass) : ExnClass_eqb a b = true <-> a = b.
Proof. destruct a, b; cbn; split; congruence. Qed.

(** The classes that [except OSError] catches. *)
Lemma isinstance_OSError (c : ExnClass) :
  exn_isinstance c OSError = true <-> c = OSError \/ c = HTCondorIOError.
Proof.
  destruct c; cbn; split; try discriminate; auto;
    intros [H|H]; discriminate.
Qed.

(** [except htcondor.HTCondorInternalError] catches that class alone. *)
Lemma isinstance_internal_error (c : ExnClass) :
  exn_isinstance c HTCondorInternalError
  = ExnClass_eqb c HTCondorInternalError.
Proof. now destruct c. Qed.

(** X22. The constructor never lets an [OSError] through, nor an exception
    of a class derived from it: whatever it raises is no instance of
    [OSError]. *)
Theorem cluster_init_never_raises_OSError (env : Env)
    (kwargs : gmap string PyVal) (e : Exn) :
  LPCCondorCluster_init env kwargs = Raise e ->
  exn_isinstance (exn_class e) OSError = false.
Proof.
  intros H. destruct (kwargs !! "scheduler_options") as [v|] eqn:Hk.
  - destruct (cluster_init_with_options env kwargs v Hk) as (e' & He & Hc).
    rewrite He in H. injection H as <-. now destruct Hc as [-> | ->].
  - rewrite (cluster_init_no_options env kwargs Hk) in H.
    destruct (on_cluster_init env _) as [h|e0]; [discriminate|].
    destruct (exn_isinstance (exn_class e0) OSError) eqn:E.
    + now injection H as <-.
    + now injection H as <-.
Qed.

Lemma cluster_init_never_raises_OSError_witness :
  exn_isinstance
    (exn_class (mkExn RuntimeError
                  "Likely failed to bind to local port 10042, try rerunning"))
    OSError = false.
Proof.
  apply (cluster_init_never_raises_OSError
           (bind_failing (mkExn HTCondorIOError "Failed to locate schedd"))
           ∅).
  reflexivity.
Defined.

(** X23. When the base constructor fails with an [OSError] or with an
    exception of a class derived from it (such as [HTCondorIOError]), the
    caller gets a [RuntimeError] whose message names the port that was
    drawn; an exception that is no instance of [OSError] comes through as
    it is. *)
Theorem cluster_init_bind_error (env : Env) (kwargs : gmap string PyVal)
    (e : Exn) :
  kwargs !! "scheduler_options" = None ->
  on_cluster_init env
    (<["scheduler_options" :=
         VDict [(KStr "host",
                 VStr (env_hostname env ++ ":"
                         ++ str_int (env_port env))%string)]]> kwargs)
    = Raise e ->
  (exn_class e = OSError \/ exn_class e = HTCondorIOError ->
   LPCCondorCluster_init env kwargs
   = Raise (mkExn RuntimeError
              ("Likely failed to bind to local port "
                 ++ str_int (env_port env) ++ ", try rerunning")%string)) /\
  (exn_class e <> OSError -> exn_class e <> HTCondorIOError ->
   LPCCondorCluster_init env kwargs = Raise e).
Proof.
  intros Hk He. rewrite (cluster_init_no_options env kwargs Hk), He.
  split.
  - intros Hc. apply isinstance_OSError in Hc. now rewrite Hc.
  - intros Hn1 Hn2.
    destruct (exn_isinstance (exn_class e) OSError) eqn:E; [|reflexivity].
    apply isinstance_OSError in E. tauto.
Qed.

Lemma cluster_init_bind_error_witness :
  LPCCondorCluster_init
    (bind_failing (mkExn OSError "[Errno 98] Address already in use")) ∅
  = Raise (mkExn RuntimeError
             "Likely failed to bind to local port 10042, try rerunning") /\
  LPCCondorCluster_init
    (bind_failing (mkExn HTCondorIOError "Failed to locate schedd")) ∅
  = Raise (mkExn RuntimeError
             "Likely failed to bind to local port 10042, try rerunning") /\
  LPCCondorCluster_init
    (bind_failing (mkExn ValueError "unexpected keyword")) ∅
  = Raise (mkExn ValueError "unexpected keyword").
Proof.
  split; [|split].
  - apply (proj1 (cluster_init_bind_error
                    (bind_failing
                       (mkExn OSError "[Errno 98] Address already in use"))
                    ∅ (mkExn OSError "[Errno 98] Address already in use")
                    (lookup_empty _) eq_refl)).
    left. reflexivity.
  - apply (proj1 (cluster_init_bind_error
                    (bind_failing
                       (mkExn HTCondorIOError "Failed to locate schedd"))
                    ∅ (mkExn HTCondorIOError "Failed to locate schedd")
                    (lookup_empty _) eq_refl)).
    right. reflexivity.
  - apply (proj2 (cluster_init_bind_error
                    (bind_failing (mkExn ValueError "unexpected keyword"))
                    ∅ (mkExn ValueError "unexpected keyword")
                    (lookup_empty _) eq_refl)); discriminate.
Defined.

(** X24. Construction succeeds exactly when the caller passes no
    [scheduler_options] and the base constructor accepts the keyword
    arguments extended with the generated [host] option; any value passed
    as [scheduler_options], a dict or not, makes it raise [TypeError] or
    [AttributeError]. *)
Theorem cluster_init_succeeds_iff (env : Env) (kwargs : gmap string PyVal) :
  (LPCCondorCluster_init env kwargs = Ok tt <->
   kwargs !! "scheduler_options" = None /\
   on_cluster_init env
     (<["scheduler_options" :=
          VDict [(KStr "host",
                  VStr (env_hostname env ++ ":"
                          ++ str_int (env_port env))%string)]]> kwargs)
     = Ok tt) /\
  (forall v, kwargs !! "scheduler_options" = Some v ->
     exists e,
       LPCCondorCluster_init env kwargs = Raise e /\
       (exn_class e = TypeError \/ exn_class e = AttributeError)).
Proof.
  split; [|intros v; apply cluster_init_with_options].
  split.
  - intros H. destruct (kwargs !! "scheduler_options") as [v|] eqn:Hk.
    + destruct (cluster_init_with_options env kwargs v Hk) as (e & He & _).
      rewrite He in H. discriminate.
    + split; [reflexivity|].
      rewrite (cluster_init_no_options env kwargs Hk) in H.
      destruct (on_cluster_init env _) as [[]|e]; [reflexivity|].
      destruct (exn_isinstance _ _); discriminate.
  - intros [Hk Hb]. now rewrite (cluster_init_no_options env kwargs Hk), Hb.
Qed.

Lemma cluster_init_succeeds_iff_witness :
  LPCCondorCluster_init (scripted 7 0 (mkActResult 1 1))
    {["processes" := VInt 1]} = Ok tt /\
  exists e,
    LPCCondorCluster_init (scripted 7 0 (mkActResult 1 1))
      {["scheduler_options" := VNone]} = Raise e /\
    (exn_class e = TypeError \/ exn_class e = AttributeError).
Proof.
  split.
  - apply (proj1 (cluster_init_succeeds_iff (scripted 7 0 (mkActResult 1 1))
                    {["processes" := VInt 1]})).
    split; [|reflexivity].
    apply lookup_singleton_ne. discriminate.
  - apply (proj2 (cluster_init_succeeds_iff (scripted 7 0 (mkActResult 1 1))
                    {["scheduler_options" := VNone]}) VNone).
    apply lookup_singleton_eq.
Defined.

(** ** Queries by cluster id *)

Lemma to_int_not_nil (n : Z) :
  Z.to_int n <> Decimal.Pos Decimal.Nil /\
  Z.to_int n <> Decimal.Neg Decimal.Nil.
Proof.
  destruct n as [|q|q]; cbn; split; try discriminate;
    intros [= H]; now apply DecimalPos.Unsigned.to_uint_nonnil in H.
Qed.

(** The text of an integer reads back as that integer. *)
Lemma str_int_reads_back (n : Z) :
  option_map Z.of_int (NilZero.int_of_string (str_int n)) = Some n.
Proof.
  unfold str_int. destruct (to_int_not_nil n) as [Hp Hn].
  rewrite (NilZero.isi _ Hp Hn). cbn. now rewrite DecimalZ.of_to.
Qed.

Lemma str_int_not_None (n : Z) : str_int n <> "None"%string.
Proof.
  intros H. pose proof (str_int_reads_back n) as Hr.
  rewrite H in Hr. discriminate.
Qed.

Lemma constraint_tail (x : option Z) :
  cluster_id_constraint x = ("ClusterId == " ++ str_opt_int x)%string.
Proof. reflexivity. Qed.

(** X25. The constraints that [close] and the finalizer send for two
    different values of [job_id] (two cluster ids, or an id and [None]) are
    different strings: a query or a removal never names another job. *)
Theorem cluster_id_constraint_injective (x y : option Z) :
  cluster_id_constraint x = cluster_id_constraint y -> x = y.
Proof.
  rewrite !constraint_tail. cbn [String.append]. intros [= H].
  change (str_opt_int x = str_opt_int y) in H.
  destruct x as [a|], y as [b|]; cbn [str_opt_int] in H.
  - f_equal. pose proof (str_int_reads_back a) as Ha.
    rewrite H, str_int_reads_back in Ha. congruence.
  - now apply str_int_not_None in H.
  - symmetry in H. now apply str_int_not_None in H.
  - reflexivity.
Qed.

Lemma cluster_id_constraint_injective_witness :
  Some 7 = Some (3 + 4).
Proof.
  apply (cluster_id_constraint_injective (Some 7) (Some (3 + 4))).
  reflexivity.
Defined.
